(** * TalkNest: the socket relay (connection routing and message fan-out)

    A shallow embedding of the server's socket module ([setupSocket]:
    [userSocketMap], [disconnect], [sendMessage], [sendMessageOnChannel]
    and the [io.on("connection")] handler), of the message and channel
    schemas it persists through, and of the REST history endpoint
    [getMessages].

    The in-memory [Map] is an insertion-ordered association list, since
    [disconnect] iterates it and stops at the first match.  Handlers run in
    a small state, exception and output monad over the server's [World]:
    every observable operation (map access, awaited persistence call, push,
    console line, listener registration) is written to the run's trace in
    program order. *)

From Stdlib Require Import List String Ascii Bool Arith Lia.
Import ListNotations.
Local Open Scope string_scope.
Local Open Scope list_scope.

Set Implicit Arguments.

(** ** JavaScript values used by the module *)

(** Truthiness of a string: only the empty string is falsy. *)
Definition truthy (s : string) : bool := negb (s =? "").

(** Truthiness of a value that is either [undefined] or a string. *)
Definition truthy_opt (o : option string) : bool :=
  match o with
  | Some s => truthy s
  | None => false
  end.

(** ** [Map]: insertion-ordered, one entry per key *)

Module JsMap.

Definition t := list (string * string).

Definition empty : t := [].

Fixpoint get (m : t) (k : string) : option string :=
  match m with
  | [] => None
  | (k', v) :: m' => if k' =? k then Some v else get m' k
  end.

(** [set] overwrites the value of an existing key in place and appends a
    new key at the end of the iteration order. *)
Fixpoint set (m : t) (k v : string) : t :=
  match m with
  | [] => [(k, v)]
  | (k', v') :: m' => if k' =? k then (k, v) :: m' else (k', v') :: set m' k v
  end.

Fixpoint delete (m : t) (k : string) : t :=
  match m with
  | [] => []
  | (k', v') :: m' => if k' =? k then m' else (k', v') :: delete m' k
  end.

Definition keys (m : t) : list string := map fst m.
Definition values (m : t) : list string := map snd m.

End JsMap.

(** ** Identities and documents *)

(** An [ObjectId] in its canonical string form ([toString()]). *)
Definition ObjectId := string.

(** A socket as the connection handler sees it: its id and the [userId]
    entry of the handshake query ([None] when the client sent none). *)
Record Socket := mkSocket {
  socket_id : string;
  handshake_userId : option string
}.

(** A document of the Users collection. *)
Record User := mkUser {
  user_id : ObjectId;
  email : string;
  password : string;
  firstName : option string;
  lastName : option string;
  imageURL : option string;
  colorTheme : option nat;
  profileSetup : bool
}.

(** The projection ["firstName lastName colorTheme imageURL email"] of a
    user document (the [_id] is always included). *)
Record Profile := mkProfile {
  profile_id : ObjectId;
  profile_firstName : option string;
  profile_lastName : option string;
  profile_colorTheme : option nat;
  profile_imageURL : option string;
  profile_email : string
}.

Definition select_profile (u : User) : Profile :=
  mkProfile (user_id u) (firstName u) (lastName u) (colorTheme u)
            (imageURL u) (email u).

(** The message object a client submits with [sendMessage]. *)
Record Draft := mkDraft {
  sender : option string;
  receiver : option string;
  messageType : option string;
  content : option string;
  fileUrl : option string
}.

(** The message object a client submits with [sendMessageOnChannel]: the
    same fields and the id of the channel ([message.channel], a string). *)
Record ChannelDraft := mkChannelDraft {
  body : Draft;
  channel : string
}.

(** A stored document of the Messages collection.  The schema has no
    [channel] path, so that field of a draft is not stored. *)
Record MessageDoc := mkMessageDoc {
  msg_id : nat;
  msg_sender : ObjectId;
  msg_receiver : option ObjectId;
  msg_messageType : string;
  msg_content : option string;
  msg_fileUrl : option string;
  msg_timeStamp : nat
}.

(** A stored document of the Channel collection. *)
Record ChannelDoc := mkChannelDoc {
  channel_id : ObjectId;
  channel_name : string;
  channel_members : list ObjectId;
  channel_admin : list ObjectId;
  channel_messages : list nat
}.

(** A reference path of a fetched document: still an id, or replaced by
    [populate] with the projected user ([None] is [null]: no such user). *)
Inductive Ref :=
| RefId (id : ObjectId)
| RefDoc (p : option Profile).

(** A message as re-read with [findById(...).populate(...)]. *)
Record MessageData := mkMessageData {
  data_id : nat;
  data_sender : Ref;
  data_receiver : option Ref;
  data_messageType : string;
  data_content : option string;
  data_fileUrl : option string;
  data_timeStamp : nat
}.

(** What a push carries: [messageData] as re-read ([null] when no document
    was found), or for a channel [{...messageData._doc, channelId}]. *)
Inductive Payload :=
| PMessage (messageData : option MessageData)
| PChannelMessage (doc : MessageData) (channelId : ObjectId).

(** A channel read with [populate("members").populate("admin")]. *)
Record ChannelData := mkChannelData {
  cdata_id : ObjectId;
  cdata_members : list User;
  cdata_admin : list User
}.

(** ** The persistent store *)

Record Db := mkDb {
  users : list User;
  messages : list MessageDoc;
  channels : list ChannelDoc;
  nextId : nat
}.

(** The awaited persistence calls. *)
Inductive DbOp :=
| MessageCreate
| MessageFindById
| ChannelFindByIdAndUpdate
| ChannelFindById
| MessageFind.

(** What the handlers take from outside the module during one invocation:
    the cast of a string to an [ObjectId] (by the persistence library),
    which awaited calls the storage serves, and the clock. *)
Record Env := mkEnv {
  castObjectId : string -> option ObjectId;
  available : DbOp -> bool;
  now : nat
}.

Inductive Error :=
| ValidationError
| CastError
| StorageError (op : DbOp)
| TypeError.

Inductive LogEntry :=
| LogError (e : Error)
| LogConnected (userId sid : string)
| LogNoUserId
| LogDisconnected (sid : string).

(** The observable operations, in program order. *)
Inductive Action :=
| MapGet (key : option string)
| MapSet (key value : string)
| MapDelete (key : string)
| DbCall (op : DbOp)
| Emit (room : string) (event : string) (data : Payload)
| ConsoleLog (entry : LogEntry)
| On (sid : string) (event : string).

(** ** The server's state *)

Record World := mkWorld {
  userSocketMap : JsMap.t;
  listeners : list (string * string);
  db : Db
}.

Definition with_map (w : World) (m : JsMap.t) : World :=
  mkWorld m (listeners w) (db w).
Definition with_listeners (w : World) (l : list (string * string)) : World :=
  mkWorld (userSocketMap w) l (db w).
Definition with_db (w : World) (d : Db) : World :=
  mkWorld (userSocketMap w) (listeners w) d.

(** ** The handler monad: state, exceptions and a trace *)

Inductive Outcome (A : Type) :=
| Return (a : A)
| Throw (e : Error).
Arguments Return {A} a.
Arguments Throw {A} e.

(** A run from a world gives an outcome, the world it leaves (kept also
    when it throws: nothing is rolled back) and the actions it performed. *)
Record Run (A : Type) := mkRun {
  outcome : Outcome A;
  world : World;
  trace : list Action
}.
Arguments mkRun {A} outcome world trace.

Definition M (A : Type) := World -> Run A.

Definition ret {A} (a : A) : M A := fun w => mkRun (Return a) w [].
Definition throw {A} (e : Error) : M A := fun w => mkRun (Throw e) w [].

Definition bind {A B} (m : M A) (k : A -> M B) : M B :=
  fun w =>
    let r := m w in
    match outcome r with
    | Return a =>
      let r' := k a (world r) in
      mkRun (outcome r') (world r') (trace r ++ trace r')
    | Throw e => mkRun (Throw e) (world r) (trace r)
    end.

(** [try { body } catch (error) { handler error }] *)
Definition try_catch {A} (body : M A) (handler : Error -> M A) : M A :=
  fun w =>
    let r := body w in
    match outcome r with
    | Return a => r
    | Throw e =>
      let r' := handler e (world r) in
      mkRun (outcome r') (world r') (trace r ++ trace r')
    end.

Declare Scope m_scope.
Delimit Scope m_scope with M.
Notation "x <- m ;; k" := (bind m (fun x => k))
  (at level 61, m at next level, right associativity) : m_scope.
Notation "m ;;; k" := (bind m (fun _ => k))
  (at level 61, right associativity) : m_scope.
Local Open Scope m_scope.

Definition act (a : Action) : M unit := fun w => mkRun (Return tt) w [a].

(** Reading and replacing the world. *)
Definition get_world : M World := fun w => mkRun (Return w) w [].
Definition put_world (w' : World) : M unit := fun _ => mkRun (Return tt) w' [].

(** Sequential [forEach] over an array. *)
Fixpoint forEach {A} (l : list A) (f : A -> M unit) : M unit :=
  match l with
  | [] => ret tt
  | x :: l' => f x ;;; forEach l' f
  end.

(** ** Primitive operations on the world *)

(** [userSocketMap.get(key)]; the key is [undefined] ([None]) when the
    message has no such field, and no entry is stored under [undefined]. *)
Definition mapGet (key : option string) : M (option string) :=
  act (MapGet key) ;;;
  w <- get_world ;;
  ret (match key with
       | Some k => JsMap.get (userSocketMap w) k
       | None => None
       end).

(** [userSocketMap.set(key, value)] *)
Definition mapSet (key value : string) : M unit :=
  act (MapSet key value) ;;;
  w <- get_world ;;
  put_world (with_map w (JsMap.set (userSocketMap w) key value)).

(** [userSocketMap.delete(key)] *)
Definition mapDelete (key : string) : M unit :=
  act (MapDelete key) ;;;
  w <- get_world ;;
  put_world (with_map w (JsMap.delete (userSocketMap w) key)).

(** [io.to(room).emit(event, data)] *)
Definition emit (room event : string) (data : Payload) : M unit :=
  act (Emit room event data).

(** [console.log(...)] *)
Definition console_log (entry : LogEntry) : M unit :=
  act (ConsoleLog entry).

(** [socket.on(event, handler)] *)
Definition on (sid event : string) : M unit :=
  act (On sid event) ;;;
  w <- get_world ;;
  put_world (with_listeners w (listeners w ++ [(sid, event)])).

(** ** The message schema ([messageSchema]) *)

(** [required] on a [String] path: present and not the empty string. *)
Definition required_string (o : option string) : bool := truthy_opt o.

(** [enum : ["text" , "file"]] *)
Definition messageType_enum (ty : string) : bool :=
  (ty =? "text") || (ty =? "file").

(** Casting and validating a draft against the schema.  [sender] is a
    required [ObjectId]; [receiver] an optional one; [messageType] is
    required and in the enum; [content] is required exactly when the type is
    ["text"] and [fileUrl] exactly when it is ["file"]. *)
Definition validate (env : Env) (d : Draft)
  : option (ObjectId * option ObjectId * string) :=
  match sender d with
  | None => None
  | Some s =>
    match castObjectId env s with
    | None => None
    | Some sid =>
      match match receiver d with
            | None => Some None
            | Some r => option_map Some (castObjectId env r)
            end with
      | None => None
      | Some rid =>
        match messageType d with
        | None => None
        | Some ty =>
          if messageType_enum ty
             && (if ty =? "text" then required_string (content d) else true)
             && (if ty =? "file" then required_string (fileUrl d) else true)
          then Some (sid, rid, ty)
          else None
        end
      end
    end
  end.

(** ** The persistence calls *)

Definition findUser (d : Db) (id : ObjectId) : option User :=
  find (fun u => user_id u =? id) (users d).

Definition findMessage (d : Db) (id : nat) : option MessageDoc :=
  find (fun m => msg_id m =? id)%nat (messages d).

Definition findChannel (d : Db) (id : ObjectId) : option ChannelDoc :=
  find (fun c => channel_id c =? id) (channels d).

Definition insert_message (d : Db) (doc : MessageDoc) : Db :=
  mkDb (users d) (messages d ++ [doc]) (channels d) (S (nextId d)).

(** The document stored for a draft with the cast sender, receiver and
    type [f]: a fresh [_id] and the default [timeStamp]. *)
Definition new_doc (env : Env) (message : Draft) (d : Db)
           (f : ObjectId * option ObjectId * string) : MessageDoc :=
  mkMessageDoc (nextId d) (fst (fst f)) (snd (fst f)) (snd f)
               (content message) (fileUrl message) (now env).

(** [Message.create(message)]: the draft is validated first, then the
    document is stored. *)
Definition Message_create (env : Env) (message : Draft) : M MessageDoc :=
  act (DbCall MessageCreate) ;;;
  match validate env message with
  | None => throw ValidationError
  | Some f =>
    if available env MessageCreate then
      w <- get_world ;;
      let doc := new_doc env message (db w) f in
      put_world (with_db w (insert_message (db w) doc)) ;;;
      ret doc
    else throw (StorageError MessageCreate)
  end.

Definition unpopulated (m : MessageDoc) : MessageData :=
  mkMessageData (msg_id m) (RefId (msg_sender m))
                (option_map RefId (msg_receiver m))
                (msg_messageType m) (msg_content m) (msg_fileUrl m)
                (msg_timeStamp m).

Definition populate_ref (d : Db) (r : Ref) : Ref :=
  match r with
  | RefId id => RefDoc (option_map select_profile (findUser d id))
  | RefDoc p => RefDoc p
  end.

(** [.populate(path, "firstName lastName colorTheme imageURL email")] on a
    message. *)
Definition populate (d : Db) (path : string) (m : MessageData) : MessageData :=
  if path =? "sender" then
    mkMessageData (data_id m) (populate_ref d (data_sender m)) (data_receiver m)
                  (data_messageType m) (data_content m) (data_fileUrl m)
                  (data_timeStamp m)
  else if path =? "receiver" then
    mkMessageData (data_id m) (data_sender m)
                  (option_map (populate_ref d) (data_receiver m))
                  (data_messageType m) (data_content m) (data_fileUrl m)
                  (data_timeStamp m)
  else m.

(** A stored message with the given paths populated, one after the other. *)
Definition reread (d : Db) (paths : list string) (m : MessageDoc) : MessageData :=
  fold_left (fun acc p => populate d p acc) paths (unpopulated m).

(** [Message.findById(id).populate(...)...]: [null] when no document has
    the id. *)
Definition Message_findById (env : Env) (id : nat) (paths : list string)
  : M (option MessageData) :=
  act (DbCall MessageFindById) ;;;
  if available env MessageFindById then
    w <- get_world ;;
    ret (option_map (reread (db w) paths) (findMessage (db w) id))
  else throw (StorageError MessageFindById).

Definition update_channels (d : Db) (cs : list ChannelDoc) : Db :=
  mkDb (users d) (messages d) cs (nextId d).

(** [$push : {messages : mid}] on one channel document. *)
Definition append_message (c : ChannelDoc) (mid : nat) : ChannelDoc :=
  mkChannelDoc (channel_id c) (channel_name c) (channel_members c)
               (channel_admin c) (channel_messages c ++ [mid]).

(** The update applied to the first channel with the id, if there is one. *)
Fixpoint push_message (cs : list ChannelDoc) (cid : ObjectId) (mid : nat)
  : list ChannelDoc :=
  match cs with
  | [] => []
  | c :: cs' =>
    if channel_id c =? cid
    then append_message c mid :: cs'
    else c :: push_message cs' cid mid
  end.

(** [Channel.findByIdAndUpdate(id, {$push : {messages : mid}})]: the id is
    cast first; when no channel has the id nothing is updated and nothing
    is thrown. *)
Definition Channel_findByIdAndUpdate (env : Env) (id : string) (mid : nat)
  : M unit :=
  act (DbCall ChannelFindByIdAndUpdate) ;;;
  match castObjectId env id with
  | None => throw CastError
  | Some cid =>
    if available env ChannelFindByIdAndUpdate then
      w <- get_world ;;
      put_world (with_db w (update_channels (db w)
                              (push_message (channels (db w)) cid mid)))
    else throw (StorageError ChannelFindByIdAndUpdate)
  end.

(** Populating an array path keeps, in order, the documents that exist. *)
Definition populate_users (d : Db) (ids : list ObjectId) : list User :=
  flat_map (fun id => match findUser d id with
                      | Some u => [u]
                      | None => []
                      end) ids.

Definition populate_channel (d : Db) (c : ChannelDoc) : ChannelData :=
  mkChannelData (channel_id c)
                (populate_users d (channel_members c))
                (populate_users d (channel_admin c)).

(** [Channel.findById(id).populate("members").populate("admin")] *)
Definition Channel_findById (env : Env) (id : string)
  : M (option ChannelData) :=
  act (DbCall ChannelFindById) ;;;
  match castObjectId env id with
  | None => throw CastError
  | Some cid =>
    if available env ChannelFindById then
      w <- get_world ;;
      ret (option_map (populate_channel (db w)) (findChannel (db w) cid))
    else throw (StorageError ChannelFindById)
  end.

(** ** The socket module ([setupSocket]) *)

(** The scan of [disconnect]: the user of the first entry, in iteration
    order, whose socket id equals ([==], on two strings) the given one. *)
Fixpoint first_user_of (entries : JsMap.t) (sid : string) : option string :=
  match entries with
  | [] => None
  | (userId, socketId) :: rest =>
    if socketId =? sid then Some userId else first_user_of rest sid
  end.

(** [disconnect(socket)] *)
Definition disconnect (sid : string) : M unit :=
  w <- get_world ;;
  match first_user_of (userSocketMap w) sid with
  | Some userId => mapDelete userId
  | None => ret tt
  end ;;;
  console_log (LogDisconnected sid).

Definition when (b : bool) (m : M unit) : M unit := if b then m else ret tt.

(** [sendMessage(message)], run with nothing else handled during its two
    awaits; [sendMessage_interleaved] below has what is handled meanwhile. *)
Definition sendMessage (env : Env) (message : Draft) : M unit :=
  try_catch
    (senderSocketId <- mapGet (sender message) ;;
     receiverSocketId <- mapGet (receiver message) ;;
     createdMessage <- Message_create env message ;;
     messageData <- Message_findById env (msg_id createdMessage)
                                     ["sender"; "receiver"] ;;
     match receiverSocketId with
     | Some r => when (truthy r) (emit r "recieveMessage" (PMessage messageData))
     | None => ret tt
     end ;;;
     match senderSocketId with
     | Some s => when (truthy s) (emit s "recieveMessage" (PMessage messageData))
     | None => ret tt
     end)
    (fun error => console_log (LogError error)).

(** The body of the two [forEach] loops of [sendMessageOnChannel]. *)
Definition push_to_user (finalData : Payload) (u : User) : M unit :=
  socketId <- mapGet (Some (user_id u)) ;;
  match socketId with
  | Some s => when (truthy s) (emit s "recieveChannelMessage" finalData)
  | None => ret tt
  end.

(** [sendMessageOnChannel(message)] *)
Definition sendMessageOnChannel (env : Env) (message : ChannelDraft) : M unit :=
  try_catch
    (createdMessage <- Message_create env (body message) ;;
     messageData <- Message_findById env (msg_id createdMessage) ["sender"] ;;
     Channel_findByIdAndUpdate env (channel message) (msg_id createdMessage) ;;;
     channel <- Channel_findById env (channel message) ;;
     finalData <- match messageData, channel with
                  | Some md, Some c => ret (PChannelMessage md (cdata_id c))
                  | _, _ => throw TypeError
                  end ;;
     match channel with
     | Some c => forEach (cdata_members c) (push_to_user finalData)
     | None => ret tt
     end ;;;
     match channel with
     | Some c => forEach (cdata_admin c) (push_to_user finalData)
     | None => ret tt
     end)
    (fun error => console_log (LogError error)).

(** The [io.on("connection")] handler. *)
Definition connection (socket : Socket) : M unit :=
  match handshake_userId socket with
  | Some userId =>
    if truthy userId then
      mapSet userId (socket_id socket) ;;;
      console_log (LogConnected userId (socket_id socket))
    else console_log LogNoUserId
  | None => console_log LogNoUserId
  end ;;;
  on (socket_id socket) "sendMessage" ;;;
  on (socket_id socket) "sendMessageOnChannel" ;;;
  on (socket_id socket) "disconnect".

(** ** Events arriving at the server *)

Inductive ClientEvent :=
| EvSendMessage (message : Draft)
| EvSendMessageOnChannel (message : ChannelDraft)
| EvDisconnect.

Definition event_name (e : ClientEvent) : string :=
  match e with
  | EvSendMessage _ => "sendMessage"
  | EvSendMessageOnChannel _ => "sendMessageOnChannel"
  | EvDisconnect => "disconnect"
  end.

Definition registered (w : World) (sid event : string) : bool :=
  existsb (fun l => (fst l =? sid) && (snd l =? event)) (listeners w).

(** An event on a socket runs the listener registered for it, if any; a
    socket gets the connection event once, so it has one listener per
    event. *)
Definition receive (env : Env) (sid : string) (e : ClientEvent) : M unit :=
  w <- get_world ;;
  if registered w sid (event_name e) then
    match e with
    | EvSendMessage message => sendMessage env message
    | EvSendMessageOnChannel message => sendMessageOnChannel env message
    | EvDisconnect => disconnect sid
    end
  else ret tt.

Inductive Input :=
| Connect (socket : Socket)
| Receive (sid : string) (e : ClientEvent).

Definition handle (env : Env) (i : Input) : M unit :=
  match i with
  | Connect socket => connection socket
  | Receive sid e => receive env sid e
  end.

(** The server processing a sequence of inputs, each under the
    environment of its moment. *)
Fixpoint serve (inputs : list (Env * Input)) : M unit :=
  match inputs with
  | [] => ret tt
  | (env, i) :: rest => handle env i ;;; serve rest
  end.

(** ** [sendMessage] across its awaits *)

(** [sendMessage] above is the run in which nothing else is handled before
    the handler ends.  The handler is an [async] function: it is suspended
    at [await Message.create(...)] and at [await Message.findById(...)],
    and the event loop runs other handlers until the awaited call is
    settled.  [meanwhile others] is what these do to the world during one
    wait; the trace of a run lists the actions of its own handler only. *)
Definition meanwhile (others : World -> World) : M unit :=
  fun w => mkRun (Return tt) (others w) [].

(** The inputs handled during a wait. *)
Definition handled (inputs : list (Env * Input)) : World -> World :=
  fun w => world (serve inputs w).

(** [sendMessage(message)] with what happens before the record is created,
    between its creation and its re-read, and between the re-read and the
    resumption of the handler.  The two socket ids are read before the
    first wait and used after the last. *)
Definition sendMessage_interleaved (env : Env) (message : Draft)
           (before_create before_findById before_push : World -> World)
  : M unit :=
  try_catch
    (senderSocketId <- mapGet (sender message) ;;
     receiverSocketId <- mapGet (receiver message) ;;
     meanwhile before_create ;;;
     createdMessage <- Message_create env message ;;
     meanwhile before_findById ;;;
     messageData <- Message_findById env (msg_id createdMessage)
                                     ["sender"; "receiver"] ;;
     meanwhile before_push ;;;
     match receiverSocketId with
     | Some r => when (truthy r) (emit r "recieveMessage" (PMessage messageData))
     | None => ret tt
     end ;;;
     match senderSocketId with
     | Some s => when (truthy s) (emit s "recieveMessage" (PMessage messageData))
     | None => ret tt
     end)
    (fun error => console_log (LogError error)).

(** ** The history endpoint ([getMessages]) *)

Record Request := mkRequest {
  req_userID : option string;
  req_body_id : option string
}.

Inductive Body :=
| BodyMessages (messages : list MessageDoc)
| BodyMsg (msg : string).

Record Response := mkResponse {
  status : nat;
  json : Body
}.

Fixpoint insert_by_timeStamp (m : MessageDoc) (l : list MessageDoc)
  : list MessageDoc :=
  match l with
  | [] => [m]
  | x :: l' =>
    if (msg_timeStamp m <? msg_timeStamp x)%nat
    then m :: x :: l'
    else x :: insert_by_timeStamp m l'
  end.

(** [.sort({timeStamp : 1})]: oldest first. *)
Definition sort_by_timeStamp (l : list MessageDoc) : list MessageDoc :=
  fold_right insert_by_timeStamp [] (rev l).

Definition opt_eqb (a : option string) (b : string) : bool :=
  match a with
  | Some x => x =? b
  | None => false
  end.

(** The filter [{$or : [{sender : user1, receiver : user2},
    {sender : user2, receiver : user1}]}]. *)
Definition between (u1 u2 : ObjectId) (m : MessageDoc) : bool :=
  ((msg_sender m =? u1) && opt_eqb (msg_receiver m) u2)
  || ((msg_sender m =? u2) && opt_eqb (msg_receiver m) u1).

(** [Message.find({$or : ...}).sort({timeStamp : 1})] *)
Definition Message_find (env : Env) (user1 user2 : string)
  : M (list MessageDoc) :=
  act (DbCall MessageFind) ;;;
  match castObjectId env user1, castObjectId env user2 with
  | Some u1, Some u2 =>
    if available env MessageFind then
      w <- get_world ;;
      ret (sort_by_timeStamp (filter (between u1 u2) (messages (db w))))
    else throw (StorageError MessageFind)
  | _, _ => throw CastError
  end.

(** [getMessages(req, res)] *)
Definition getMessages (env : Env) (req : Request) : M Response :=
  try_catch
    (match req_userID req, req_body_id req with
     | Some user1, Some user2 =>
       if truthy user1 && truthy user2 then
         messages <- Message_find env user1 user2 ;;
         ret (mkResponse 200 (BodyMessages messages))
       else ret (mkResponse 404 (BodyMsg "Both the Users are Required"))
     | _, _ => ret (mkResponse 404 (BodyMsg "Both the Users are Required"))
     end)
    (fun error =>
       console_log (LogError error) ;;;
       ret (mkResponse 500 (BodyMsg "Internal Server Error"))).

(** ** Reading a run *)

Definition is_push (a : Action) : bool :=
  match a with
  | Emit _ _ _ => true
  | _ => false
  end.

(** The push events of a trace, in order. *)
Definition pushes (t : list Action) : list Action := filter is_push t.

Definition is_push_to (room : string) (a : Action) : bool :=
  match a with
  | Emit r _ _ => r =? room
  | _ => false
  end.

(** The push events of a trace addressed to one socket. *)
Definition pushes_to (room : string) (t : list Action) : list Action :=
  filter (is_push_to room) t.

(** The id of the message a payload carries. *)
Definition carried_id (p : Payload) : option nat :=
  match p with
  | PMessage (Some m) => Some (data_id m)
  | PMessage None => None
  | PChannelMessage m _ => Some (data_id m)
  end.

(** The event labels of the push events of a trace. *)
Definition labels (t : list Action) : list string :=
  flat_map (fun a => match a with
                     | Emit _ event _ => [event]
                     | _ => []
                     end) t.



Definition is_lookup (a : Action) : bool :=
  match a with
  | MapGet _ => true
  | _ => false
  end.

Definition is_call (a : Action) : bool :=
  match a with
  | DbCall _ => true
  | _ => false
  end.

(** Some action satisfying [P] occurs in the trace before one
    satisfying [Q]. *)
Fixpoint before (P Q : Action -> bool) (t : list Action) : bool :=
  match t with
  | [] => false
  | a :: t' => (P a && existsb Q t') || before P Q t'
  end.

(** The socket ids the directory resolves the given identities to, in
    order and with repetitions. *)
Definition resolve (m : JsMap.t) (ids : list string) : list string :=
  flat_map (fun id => match JsMap.get m id with
                      | Some s => [s]
                      | None => []
                      end) ids.

(** The push made for a looked-up socket id, if it is a live one. *)
Definition push_if_live (socketId : option string) (event : string)
           (data : Payload) : list Action :=
  match socketId with
  | Some s => if truthy s then [Emit s event data] else []
  | None => []
  end.

(** The actions of one [forEach] loop of the channel fan-out. *)
Definition fanout (m : JsMap.t) (data : Payload) (us : list User) : list Action :=
  flat_map (fun u => MapGet (Some (user_id u))
                     :: push_if_live (JsMap.get m (user_id u))
                                     "recieveChannelMessage" data) us.

(** Message ids are fresh: every stored id is below the next one. *)
Definition db_ok (d : Db) : Prop :=
  Forall (fun m => msg_id m < nextId d) (messages d).

(** Socket ids in the directory are non-empty and belong to one user, and
    a user has one entry. *)
Definition directory_ok (m : JsMap.t) : Prop :=
  NoDup (JsMap.keys m) /\ NoDup (JsMap.values m)
  /\ Forall (fun s => truthy s = true) (JsMap.values m).

(** A message is linked when an existing channel lists its id. *)
Definition linked (d : Db) (m : MessageDoc) : Prop :=
  exists c, In c (channels d) /\ In (msg_id m) (channel_messages c).

(** A run with the listeners of the world it leaves replaced. *)
Definition reframe {A} (r : Run A) (l : list (string * string)) : Run A :=
  mkRun (outcome r) (with_listeners (world r) l) (trace r).

(** The socket layer gives every connection a new, non-empty id: the
    inputs whose connections have ids that are non-empty and not among
    those [seen] before. *)
Fixpoint fresh_sockets (seen : list string) (inputs : list (Env * Input)) : Prop :=
  match inputs with
  | [] => True
  | (_, Connect s) :: rest =>
    truthy (socket_id s) = true /\ ~ In (socket_id s) seen
    /\ fresh_sockets (socket_id s :: seen) rest
  | (_, Receive _ _) :: rest => fresh_sockets seen rest
  end.

(** The socket ids seen after the inputs. *)
Fixpoint seen_after (seen : list string) (inputs : list (Env * Input)) : list string :=
  match inputs with
  | [] => seen
  | (_, Connect s) :: rest => seen_after (socket_id s :: seen) rest
  | (_, Receive _ _) :: rest => seen_after seen rest
  end.

(** The state invariant of the server. *)
Definition world_ok (seen : list string) (w : World) : Prop :=
  directory_ok (userSocketMap w)
  /\ incl (JsMap.values (userSocketMap w)) seen
  /\ db_ok (db w).

(** What other handlers may do to the store during a wait: they create
    records, under new ids, and delete none. *)
Definition keeps_store (others : World -> World) : Prop :=
  forall w,
    (db_ok (db w) -> db_ok (db (others w)))
    /\ exists added, messages (db (others w)) = messages (db w) ++ added.

(** ** A concrete setting for examples *)

Module Sample.

Definition is_hex (c : ascii) : bool :=
  let n := nat_of_ascii c in
  (((48 <=? n) && (n <=? 57)) || ((97 <=? n) && (n <=? 102))
   || ((65 <=? n) && (n <=? 70)))%nat.

Definition lower_hex (c : ascii) : ascii :=
  let n := nat_of_ascii c in
  if ((65 <=? n) && (n <=? 70))%nat then ascii_of_nat (n + 32) else c.

(** The cast of a 24-digit hexadecimal string; other strings are
    refused. *)
Definition hexObjectId (s : string) : option ObjectId :=
  let cs := list_ascii_of_string s in
  if (List.length cs =? 24)%nat && forallb is_hex cs
  then Some (string_of_list_ascii (map lower_hex cs))
  else None.

Definition env : Env := mkEnv hexObjectId (fun _ => true) 1700.

Definition alice : string := "64b7f0c2a1d3e4f5a6b7c8d1".
Definition bob : string := "64b7f0c2a1d3e4f5a6b7c8d2".
Definition carol : string := "64b7f0c2a1d3e4f5a6b7c8d3".
Definition general : string := "64b7f0c2a1d3e4f5a6b7c8e1".
Definition staff : string := "64b7f0c2a1d3e4f5a6b7c8e2".
Definition nowhere : string := "64b7f0c2a1d3e4f5a6b7c8e9".

Definition user (id name : string) : User :=
  mkUser id (name ++ "@example.org") "hash" (Some name) None None (Some 0) true.

Definition db0 : Db :=
  mkDb [user alice "alice"; user bob "bob"; user carol "carol"]
       []
       [mkChannelDoc general "general" [bob; carol] [alice] [];
        mkChannelDoc staff "staff" [alice; bob] [alice] []]
       0.

Definition world0 : World := mkWorld JsMap.empty [] db0.

Definition sock_a : Socket := mkSocket "sock-a" (Some alice).
Definition sock_b : Socket := mkSocket "sock-b" (Some bob).
Definition sock_x : Socket := mkSocket "sock-x" None.

(** alice and bob connected, and one connection without identity. *)
Definition world1 : World :=
  world (serve [(env, Connect sock_a); (env, Connect sock_b);
                (env, Connect sock_x)] world0).


Definition hi : Draft :=
  mkDraft (Some alice) (Some bob) (Some "text") (Some "hi") None.


(** Only alice is connected. *)
Definition world_a : World := world (connection sock_a world0).

(** bob connects. *)
Definition bob_connects : World -> World := handled [(env, Connect sock_b)].


Definition nothing : World -> World := handled [].

End Sample.

From Stdlib Require Import Permutation Sorted.

(** ** Invariants of the store *)

(** The conditional requirements of the message schema, on a stored
    document. *)
Definition schema_ok (m : MessageDoc) : bool :=
  messageType_enum (msg_messageType m)
  && (if msg_messageType m =? "text" then required_string (msg_content m)
      else true)
  && (if msg_messageType m =? "file" then required_string (msg_fileUrl m)
      else true).

(** Channels list ids of messages that were created. *)
Definition refs_ok (d : Db) : Prop :=
  Forall (fun c => Forall (fun id => id < nextId d) (channel_messages c))
         (channels d).

Definition store_ok (d : Db) : Prop :=
  db_ok d
  /\ NoDup (map msg_id (messages d))
  /\ Forall (fun m => schema_ok m = true) (messages d)
  /\ refs_ok d.

(** ** The channel schema methods *)

(** [channelSchema.methods.isAdmin] *)
Definition isAdmin (c : ChannelDoc) (userId : ObjectId) : bool :=
  existsb (String.eqb userId) (channel_admin c).

(** [channelSchema.methods.isMember] *)
Definition isMember (c : ChannelDoc) (userId : ObjectId) : bool :=
  existsb (String.eqb userId) (channel_members c)
  || existsb (String.eqb userId) (channel_admin c).

(** ** Reading a history *)

(** The field of a message as a list: empty when the field is absent. *)
Definition opt_list {A} (o : option A) : list A :=
  match o with
  | Some a => [a]
  | None => []
  end.

(** [x] is not newer than [y]. *)
Definition older (x y : MessageDoc) : Prop := msg_timeStamp x <= msg_timeStamp y.

(** ** The channel history endpoint ([getChannelMessages]) *)

(** The projection ["colorTheme firstName lastName emailID"] of a user
    document; the schema has no [emailID] path. *)
Record SenderView := mkSenderView {
  sv_id : ObjectId;
  sv_colorTheme : option nat;
  sv_firstName : option string;
  sv_lastName : option string
}.

(** A message of a populated channel: the projection
    ["sender messageType content fileUrl timeStamp"], the sender replaced
    by the projected user ([None] is [null]: no such user). *)
Record MessageView := mkMessageView {
  view_id : nat;
  view_sender : option SenderView;
  view_messageType : string;
  view_content : option string;
  view_fileUrl : option string;
  view_timeStamp : nat
}.

Definition select_sender (u : User) : SenderView :=
  mkSenderView (user_id u) (colorTheme u) (firstName u) (lastName u).

Definition view_message (d : Db) (m : MessageDoc) : MessageView :=
  mkMessageView (msg_id m)
                (option_map select_sender (findUser d (msg_sender m)))
                (msg_messageType m) (msg_content m) (msg_fileUrl m)
                (msg_timeStamp m).

(** Populating the [messages] path keeps, in order, the messages that
    exist. *)
Definition populate_messages (d : Db) (ids : list nat) : list MessageView :=
  flat_map (fun id => match findMessage d id with
                      | Some m => [view_message d m]
                      | None => []
                      end) ids.

(** [Channel.findById(channelId).populate({path : 'messages', ...})];
    what is kept of the result is its [messages]. *)
Definition Channel_findById_messages (env : Env) (id : string)
  : M (option (list MessageView)) :=
  act (DbCall ChannelFindById) ;;;
  match castObjectId env id with
  | None => throw CastError
  | Some cid =>
    if available env ChannelFindById then
      w <- get_world ;;
      ret (option_map (fun c => populate_messages (db w) (channel_messages c))
                      (findChannel (db w) cid))
    else throw (StorageError ChannelFindById)
  end.

(** A JSON answer: the status, the [msg] field and the data field, when
    present. *)
Record Reply (B : Type) := mkReply {
  reply_status : nat;
  reply_msg : option string;
  reply_data : option B
}.
Arguments mkReply {B} reply_status reply_msg reply_data.
Arguments reply_status {B} r.
Arguments reply_msg {B} r.
Arguments reply_data {B} r.

(** [getChannelMessages(req, res)], on [req.params.channelId]. *)
Definition getChannelMessages (env : Env) (channelId : option string)
  : M (Reply (list MessageView)) :=
  try_catch
    (match channelId with
     | Some id =>
       if truthy id then
         channel <- Channel_findById_messages env id ;;
         match channel with
         | Some messages => ret (mkReply 200 None (Some messages))
         | None => throw TypeError
         end
       else ret (mkReply 400 (Some "NO ChannelId was provided") None)
     | None => ret (mkReply 400 (Some "NO ChannelId was provided") None)
     end)
    (fun error =>
       console_log (LogError error) ;;;
       ret (mkReply 500 (Some "INTERNAL SERVER ERROR") None)).

(** ** The REST controllers on channels and contacts *)

(** The awaited persistence calls of these controllers. *)
Inductive RestCall :=
| UserFindById
| UserFind
| ChannelCreate
| MessageAggregate.

Inductive RestError :=
| RestCastError
| RestValidationError
| RestStorageError (call : RestCall).

(** What a controller takes from outside during one request: the cast of a
    string to an [ObjectId], which awaited calls the storage serves, and
    the id generated for a document created during the request. *)
Record RestEnv := mkRestEnv {
  rest_cast : string -> option ObjectId;
  served : RestCall -> bool;
  newObjectId : ObjectId
}.

(** A controller body: a result or a thrown error, and the store. *)
Definition Rest (A : Type) := Db -> (A + RestError) * Db.

Definition rest_ret {A} (a : A) : Rest A := fun d => (inl a, d).
Definition rest_throw {A} (e : RestError) : Rest A := fun d => (inr e, d).

Definition rest_bind {A B} (m : Rest A) (k : A -> Rest B) : Rest B :=
  fun d =>
    match m d with
    | (inl a, d') => k a d'
    | (inr e, d') => (inr e, d')
    end.

Declare Scope rest_scope.
Delimit Scope rest_scope with rest.
Notation "x <~ m ;; k" := (rest_bind m (fun x => k))
  (at level 61, m at next level, right associativity) : rest_scope.

(** A handled request: the JSON answer, the store it leaves and what was
    written to the console. *)
Record Handled (B : Type) := mkHandled {
  reply : Reply B;
  store : Db;
  console : list RestError
}.
Arguments mkHandled {B} reply store console.
Arguments reply {B} h.
Arguments store {B} h.
Arguments console {B} h.

(** [try { body } catch (error) { console.log({error}); return on_error }] *)
Definition rest_catch {B} (body : Rest (Reply B)) (on_error : Reply B)
  : Db -> Handled B :=
  fun d =>
    match body d with
    | (inl r, d') => mkHandled r d' []
    | (inr e, d') => mkHandled on_error d' [e]
    end.

(** [new mongoose.Types.ObjectId(s)] *)
Definition rest_objectId (renv : RestEnv) (s : string) : Rest ObjectId :=
  match rest_cast renv s with
  | Some id => rest_ret id
  | None => rest_throw RestCastError
  end.

(** Casting every element of an array of ids. *)
Fixpoint cast_all (renv : RestEnv) (l : list string) : option (list ObjectId) :=
  match l with
  | [] => Some []
  | s :: l' =>
    match rest_cast renv s, cast_all renv l' with
    | Some id, Some ids => Some (id :: ids)
    | _, _ => None
    end
  end.

(** [User.findById(id)] *)
Definition User_findById (renv : RestEnv) (id : ObjectId) : Rest (option User) :=
  fun d =>
    if served renv UserFindById then (inl (findUser d id), d)
    else (inr (RestStorageError UserFindById), d).

(** [User.find({_id : {$in : members}})] *)
Definition User_find_in (renv : RestEnv) (members : list string)
  : Rest (list User) :=
  fun d =>
    match cast_all renv members with
    | None => (inr RestCastError, d)
    | Some ids =>
      if served renv UserFind
      then (inl (filter (fun u => existsb (String.eqb (user_id u)) ids)
                        (users d)), d)
      else (inr (RestStorageError UserFind), d)
    end.

(** [Channel.create({name, admin, members})]: the name is required, the
    ids are cast, and the document is stored under a new id with an empty
    message list. *)
Definition Channel_create (renv : RestEnv) (name : string)
           (admin : list ObjectId) (members : list string) : Rest ChannelDoc :=
  fun d =>
    if truthy name then
      match cast_all renv members with
      | None => (inr RestValidationError, d)
      | Some ids =>
        if served renv ChannelCreate then
          let c := mkChannelDoc (newObjectId renv) name ids admin [] in
          (inl c, update_channels d (channels d ++ [c]))
        else (inr (RestStorageError ChannelCreate), d)
      end
    else (inr RestValidationError, d).

(** The request of [CreateChannel]: [req.userID] as set by the
    authentication middleware, and [name] and [members] of the body. *)
Record CreateChannelRequest := mkCreateChannelRequest {
  cc_userID : string;
  cc_name : string;
  cc_members : list string
}.

Local Open Scope rest_scope.

(** [CreateChannel(req, res)] *)
Definition CreateChannel (renv : RestEnv) (req : CreateChannelRequest)
  : Db -> Handled ChannelDoc :=
  rest_catch
    (user <~ rest_objectId renv (cc_userID req) ;;
     admin <~ User_findById renv user ;;
     match admin with
     | None => rest_ret (mkReply 400 (Some "Admin User Not Found") None)
     | Some admin =>
       validMembers <~ User_find_in renv (cc_members req) ;;
       if negb (List.length validMembers =? List.length (cc_members req))%nat
       then rest_ret (mkReply 400 (Some "Some Members are not Valid Users") None)
       else
         channel <~ Channel_create renv (cc_name req) [user_id admin]
                                   (cc_members req) ;;
         rest_ret (mkReply 200 (Some "Channel Created Successfully")
                           (Some channel))
     end)
    (mkReply 500 (Some "INTERNAL SERVER ERROR") None).

(** Every member and admin of every channel is an existing user. *)
Definition members_exist (d : Db) : Prop :=
  Forall (fun c => Forall (fun id => findUser d id <> None)
                          (channel_members c ++ channel_admin c))
         (channels d).

(** User ids are keys of the Users collection. *)
Definition users_unique (d : Db) : Prop := NoDup (map user_id (users d)).

(** ** The contacts controller ([getAllContacts], [getContactsForDMList]) *)

(** An entry of the contact picker. *)
Record ContactOption := mkContactOption {
  option_label : string;
  option_value : ObjectId
}.

(** A value inside a template literal: an absent one prints as
    ["undefined"]. *)
Definition template (o : option string) : string :=
  match o with
  | Some s => s
  | None => "undefined"
  end.

(** [user.firstName ? `${user.firstName} ${user.lastName}` : user.email] *)
Definition contact_label (u : User) : string :=
  if truthy_opt (firstName u)
  then template (firstName u) ++ " " ++ template (lastName u)
  else email u.

(** [User.find({_id : {$ne : id}})] *)
Definition User_find_others (renv : RestEnv) (id : string) : Rest (list User) :=
  fun d =>
    match rest_cast renv id with
    | None => (inr RestCastError, d)
    | Some me =>
      if served renv UserFind
      then (inl (filter (fun u => negb (user_id u =? me)) (users d)), d)
      else (inr (RestStorageError UserFind), d)
    end.

(** [getAllContacts(req, res)], on [req.userID]. *)
Definition getAllContacts (renv : RestEnv) (userID : string)
  : Db -> Handled (list ContactOption) :=
  rest_catch
    (users <~ User_find_others renv userID ;;
     rest_ret (mkReply 200 None
                       (Some (map (fun user => mkContactOption
                                                 (contact_label user)
                                                 (user_id user)) users))))
    (mkReply 500 (Some "INTERNAL SERVER ERROR") None).

(** A row of the direct-message contact list. *)
Record DMContact := mkDMContact {
  dm_id : ObjectId;
  dm_lastMessageTime : nat;
  dm_email : string;
  dm_firstName : option string;
  dm_lastName : option string;
  dm_imageURL : option string;
  dm_colorTheme : option nat
}.

(** [$match : {$or : [{sender : userID}, {receiver : userID}]}] *)
Definition involves (userID : ObjectId) (m : MessageDoc) : bool :=
  (msg_sender m =? userID) || opt_eqb (msg_receiver m) userID.

(** The [_id] of [$group]: the receiver when the user is the sender, else
    the sender; [None] is the [null] of a missing receiver. *)
Definition other_party (userID : ObjectId) (m : MessageDoc) : option ObjectId :=
  if msg_sender m =? userID then msg_receiver m else Some (msg_sender m).

Fixpoint insert_desc {A} (key : A -> nat) (x : A) (l : list A) : list A :=
  match l with
  | [] => [x]
  | y :: l' =>
    if (key y <? key x)%nat then x :: y :: l' else y :: insert_desc key x l'
  end.

(** [$sort : {key : -1}]: largest key first. *)
Definition sort_desc {A} (key : A -> nat) (l : list A) : list A :=
  fold_right (insert_desc key) [] (rev l).

(** [x] comes no later than [y] in an order with the largest key first. *)
Definition newest_first {A} (key : A -> nat) (x y : A) : Prop := key y <= key x.

Definition same_party (a b : option ObjectId) : bool :=
  match a, b with
  | Some x, Some y => x =? y
  | None, None => true
  | _, _ => false
  end.

(** [$group] with [$first]: one group per [_id], holding the time of the
    first document of the group in the order of arrival. *)
Fixpoint group_first (l : list (option ObjectId * nat))
  : list (option ObjectId * nat) :=
  match l with
  | [] => []
  | g :: l' =>
    g :: filter (fun g' => negb (same_party (fst g') (fst g))) (group_first l')
  end.

(** [$lookup] in the users, [$unwind] and [$project]: one row for each
    user with the [_id] of the group, none for a group whose [_id] names no
    user. *)
Definition contact_rows (d : Db) (g : option ObjectId * nat) : list DMContact :=
  match fst g with
  | Some id =>
    map (fun u => mkDMContact id (snd g) (email u) (firstName u) (lastName u)
                              (imageURL u) (colorTheme u))
        (filter (fun u => user_id u =? id) (users d))
  | None => []
  end.

(** The pipeline of [Message.aggregate] in [getContactsForDMList]. *)
Definition dm_contacts (d : Db) (userID : ObjectId) : list DMContact :=
  let matched := filter (involves userID) (messages d) in
  let sorted := sort_desc msg_timeStamp matched in
  let groups := group_first (map (fun m => (other_party userID m, msg_timeStamp m))
                                 sorted) in
  sort_desc dm_lastMessageTime (flat_map (contact_rows d) groups).

(** [getContactsForDMList(req, res)], on [req.userID]; its catch block
    answers 404. *)
Definition getContactsForDMList (renv : RestEnv) (userID : string)
  : Db -> Handled (list DMContact) :=
  rest_catch
    (userID <~ rest_objectId renv userID ;;
     contacts <~ (fun d => if served renv MessageAggregate
                           then (inl (dm_contacts d userID), d)
                           else (inr (RestStorageError MessageAggregate), d)) ;;
     rest_ret (mkReply 200 None (Some contacts)))
    (mkReply 404 (Some "INTERNAL SERVER ERROR") None).

(** ** The channel list of the client store ([addChannel],
    [addChannelInChannelList]) *)

(** [channels.findIndex(f)]; [None] is the [-1] of no match. *)
Fixpoint findIndex {A} (f : A -> bool) (l : list A) : option nat :=
  match l with
  | [] => None
  | x :: l' => if f x then Some 0 else option_map S (findIndex f l')
  end.

(** [channels.splice(index, 1)] *)
Definition splice_one {A} (index : nat) (l : list A) : list A :=
  firstn index l ++ skipn (S index) l.

(** [addChannel(channel)]: the new channel is put first. *)
Definition addChannel (channel : ChannelDoc) (channels : list ChannelDoc)
  : list ChannelDoc :=
  channel :: channels.

(** [addChannelInChannelList(message)], on [message.channelId] and the
    [channels] array of the store, which it changes in place: the first
    channel with this [_id], if there is one, is removed from its place and
    put first.  [find] and [findIndex] run the same test, so both match or
    neither does. *)
Definition addChannelInChannelList (channelId : option ObjectId)
           (channels : list ChannelDoc) : list ChannelDoc :=
  let named := fun channel => opt_eqb channelId (channel_id channel) in
  match find named channels, findIndex named channels with
  | Some data, Some index => data :: splice_one index channels
  | _, _ => channels
  end.

(** ** A concrete setting for the controllers *)

Module Demo.

Definition renv : RestEnv :=
  mkRestEnv Sample.hexObjectId (fun _ => true) "64b7f0c2a1d3e4f5a6b7c8ea".

(** alice asks for a channel with bob and carol. *)
Definition create_team : CreateChannelRequest :=
  mkCreateChannelRequest Sample.alice "team" [Sample.bob; Sample.carol].

(** bob is named twice. *)
Definition create_twice : CreateChannelRequest :=
  mkCreateChannelRequest Sample.alice "team" [Sample.bob; Sample.bob].

(** The store after alice's message to bob, sent while both are
    connected. *)
Definition db1 : Db :=
  db (world (sendMessage Sample.env Sample.hi Sample.world1)).

End Demo.

(** * Properties *)

Unset Implicit Arguments.

(** ** The map *)

Lemma get_set_same (m : JsMap.t) (k v : string) :
  JsMap.get (JsMap.set m k v) k = Some v.
Proof.
  induction m as [|[k' v'] m IH]; cbn.
  - now rewrite String.eqb_refl.
  - destruct (k' =? k) eqn:E; cbn.
    + now rewrite String.eqb_refl.
    + now rewrite E.
Qed.

Lemma get_set_other (m : JsMap.t) (k k' v : string) :
  k' <> k -> JsMap.get (JsMap.set m k v) k' = JsMap.get m k'.
Proof.
  intros Hne. induction m as [|[k0 v0] m IH]; cbn.
  - destruct (String.eqb_spec k k'); congruence.
  - destruct (String.eqb_spec k0 k) as [->|Hk]; cbn.
    + destruct (String.eqb_spec k k'); congruence.
    + destruct (String.eqb_spec k0 k'); congruence.
Qed.

Lemma set_set (m : JsMap.t) (k v1 v2 : string) :
  JsMap.set (JsMap.set m k v1) k v2 = JsMap.set m k v2.
Proof.
  induction m as [|[k' v'] m IH]; cbn.
  - now rewrite String.eqb_refl.
  - destruct (k' =? k) eqn:E; cbn.
    + now rewrite String.eqb_refl.
    + now rewrite E, IH.
Qed.

Lemma get_In (m : JsMap.t) (k v : string) :
  JsMap.get m k = Some v -> In (k, v) m.
Proof.
  induction m as [|[k' v'] m IH]; cbn; [discriminate|].
  destruct (String.eqb_spec k' k) as [->|Hk]; intros H.
  - injection H as ->. now left.
  - right. now apply IH.
Qed.

Lemma first_user_of_unmatched (m : JsMap.t) (sid : string) :
  ~ In sid (JsMap.values m) -> first_user_of m sid = None.
Proof.
  induction m as [|[u s] m IH]; cbn; [reflexivity|].
  intros Hn. destruct (String.eqb_spec s sid) as [->|Hs].
  - exfalso. apply Hn. now left.
  - apply IH. intros Hin. apply Hn. now right.
Qed.

Lemma first_user_of_In (m : JsMap.t) (sid u : string) :
  first_user_of m sid = Some u -> In (u, sid) m.
Proof.
  induction m as [|[u' s] m IH]; cbn; [discriminate|].
  destruct (String.eqb_spec s sid) as [->|Hs]; intros H.
  - injection H as ->. now left.
  - right. now apply IH.
Qed.

(** ** Runs of the connection handlers *)

Lemma connection_world (s : Socket) (w : World) :
  world (connection s w) =
  mkWorld
    (match handshake_userId s with
     | Some u => if truthy u then JsMap.set (userSocketMap w) u (socket_id s)
                 else userSocketMap w
     | None => userSocketMap w
     end)
    (listeners w ++ [(socket_id s, "sendMessage");
                     (socket_id s, "sendMessageOnChannel");
                     (socket_id s, "disconnect")])
    (db w).
Proof.
  destruct w as [m l d]. unfold connection.
  destruct (handshake_userId s) as [u|]; [destruct (truthy u)|]; cbn;
    now rewrite <- !app_assoc.
Qed.

Lemma disconnect_world (sid : string) (w : World) :
  world (disconnect sid w) =
  match first_user_of (userSocketMap w) sid with
  | Some u => with_map w (JsMap.delete (userSocketMap w) u)
  | None => w
  end.
Proof.
  unfold disconnect. cbn.
  destruct (first_user_of (userSocketMap w) sid); reflexivity.
Qed.

(** C5. Binding an identity to one handle and then to another (two
    connections announcing the same [userId]) leaves the directory resolving
    that identity to the second handle and not to the first: the directory
    is the former one with the identity set to the second handle.  Whoever
    still resolves to the first handle is another identity that resolved to
    it before both calls; so when the first handle was new to the directory,
    as a socket id is, no identity resolves to it any more. *)
Theorem C5_bind_twice_last_wins (w : World) (userId h1 h2 : string) :
  truthy userId = true ->
  h1 <> h2 ->
  let w' := world (connection (mkSocket h2 (Some userId))
                     (world (connection (mkSocket h1 (Some userId)) w))) in
  JsMap.get (userSocketMap w') userId = Some h2
  /\ JsMap.get (userSocketMap w') userId <> Some h1
  /\ userSocketMap w' = JsMap.set (userSocketMap w) userId h2
  /\ (forall v, JsMap.get (userSocketMap w') v = Some h1 ->
                v <> userId /\ JsMap.get (userSocketMap w) v = Some h1)
  /\ (~ In h1 (JsMap.values (userSocketMap w)) ->
      forall v, JsMap.get (userSocketMap w') v <> Some h1).
Proof.
  intros Ht Hne w'. subst w'. rewrite !connection_world. cbn.
  rewrite Ht. rewrite set_set, get_set_same.
  assert (Hold : forall v,
             JsMap.get (JsMap.set (userSocketMap w) userId h2) v = Some h1 ->
             v <> userId /\ JsMap.get (userSocketMap w) v = Some h1).
  { intros v H. destruct (String.eqb_spec v userId) as [->|Hv].
    - rewrite get_set_same in H. congruence.
    - now rewrite get_set_other in H. }
  repeat split; try congruence; try (now apply Hold).
  intros Hfresh v H. apply Hold in H as [_ H]. apply Hfresh.
  apply get_In in H. now apply (in_map snd) in H.
Qed.

Lemma C5_bind_twice_last_wins_witness :
  JsMap.get
    (userSocketMap
       (world (connection (mkSocket "sock-2" (Some Sample.alice))
                 (world (connection (mkSocket "sock-1" (Some Sample.alice))
                           Sample.world1)))))
    Sample.alice = Some "sock-2".
Proof.
  apply (C5_bind_twice_last_wins Sample.world1 Sample.alice "sock-1" "sock-2").
  - reflexivity.
  - discriminate.
Defined.

(** C6. Unbinding a handle that no directory entry holds leaves the world,
    and with it the directory, as it was; so does unbinding it again. *)
Theorem C6_unbind_unmatched_noop (w : World) (sid : string) :
  ~ In sid (JsMap.values (userSocketMap w)) ->
  world (disconnect sid w) = w
  /\ userSocketMap (world (disconnect sid w)) = userSocketMap w
  /\ world (disconnect sid (world (disconnect sid w))) = world (disconnect sid w).
Proof.
  intros Hn.
  assert (E : world (disconnect sid w) = w).
  { rewrite disconnect_world. now rewrite first_user_of_unmatched. }
  repeat split; rewrite ?E; auto.
Qed.

Lemma C6_unbind_unmatched_noop_witness :
  world (disconnect "sock-z" Sample.world1) = Sample.world1.
Proof.
  apply (C6_unbind_unmatched_noop Sample.world1 "sock-z").
  vm_compute. intros [H|[H|[]]]; discriminate.
Defined.

(** ** Runs of the delivery handlers *)

Arguments findMessage : simpl never.
Arguments findChannel : simpl never.
Arguments findUser : simpl never.
Arguments reread : simpl never.
Arguments populate_channel : simpl never.
Arguments populate_users : simpl never.
Arguments push_message : simpl never.
Arguments insert_message : simpl never.
Arguments update_channels : simpl never.
Arguments new_doc : simpl never.

Lemma findMessage_fresh (d : Db) (doc : MessageDoc) :
  db_ok d -> msg_id doc = nextId d ->
  findMessage (insert_message d doc) (nextId d) = Some doc.
Proof.
  unfold db_ok, findMessage, insert_message. cbn.
  intros Hok Hid. induction (messages d) as [|m ms IH]; cbn.
  - rewrite Hid, Nat.eqb_refl. reflexivity.
  - inversion Hok as [|? ? Hm Hms]; subst.
    destruct (Nat.eqb_spec (msg_id m) (nextId d)); [lia|]. now apply IH.
Qed.

Lemma db_ok_insert (d : Db) (doc : MessageDoc) :
  db_ok d -> msg_id doc = nextId d -> db_ok (insert_message d doc).
Proof.
  unfold db_ok, insert_message. cbn. intros Hok Hid.
  apply Forall_app. split.
  - eapply Forall_impl; [|exact Hok]. cbn. intros; lia.
  - constructor; [lia|constructor].
Qed.

(** The whole run of [sendMessage], case by case. *)
Lemma sendMessage_run (env : Env) (message : Draft) (w : World) :
  sendMessage env message w =
  let m := userSocketMap w in
  let lookups := [MapGet (sender message); MapGet (receiver message);
                  DbCall MessageCreate] in
  let get k := match k with Some k => JsMap.get m k | None => None end in
  match validate env message with
  | None =>
    mkRun (Return tt) w (lookups ++ [ConsoleLog (LogError ValidationError)])
  | Some f =>
    if available env MessageCreate then
      let doc := new_doc env message (db w) f in
      let w' := with_db w (insert_message (db w) doc) in
      if available env MessageFindById then
        let data := PMessage (option_map (reread (db w') ["sender"; "receiver"])
                                         (findMessage (db w') (msg_id doc))) in
        mkRun (Return tt) w'
              (lookups ++ [DbCall MessageFindById]
                 ++ push_if_live (get (receiver message)) "recieveMessage" data
                 ++ push_if_live (get (sender message)) "recieveMessage" data)
      else
        mkRun (Return tt) w'
              (lookups ++ [DbCall MessageFindById;
                           ConsoleLog (LogError (StorageError MessageFindById))])
    else
      mkRun (Return tt) w
            (lookups ++ [ConsoleLog (LogError (StorageError MessageCreate))])
  end.
Proof.
  destruct w as [m l d].
  unfold sendMessage, try_catch, bind, mapGet, Message_create, Message_findById.
  cbn.
  destruct (validate env message) as [f|]; cbn; [|reflexivity].
  destruct (available env MessageCreate); cbn; [|reflexivity].
  destruct (available env MessageFindById); cbn; [|reflexivity].
  unfold push_if_live, when, emit, act.
  destruct (receiver message) as [rk|]; cbn;
    destruct (sender message) as [sk|]; cbn;
    repeat match goal with
           | |- context [JsMap.get m ?k] => destruct (JsMap.get m k); cbn
           | |- context [truthy ?s] => destruct (truthy s); cbn
           end; reflexivity.
Qed.

(** The same with what is handled during the waits. *)
Lemma sendMessage_interleaved_run (env : Env) (message : Draft)
      (o1 o2 o3 : World -> World) (w : World) :
  sendMessage_interleaved env message o1 o2 o3 w =
  let m := userSocketMap w in
  let lookups := [MapGet (sender message); MapGet (receiver message);
                  DbCall MessageCreate] in
  let get k := match k with Some k => JsMap.get m k | None => None end in
  let w1 := o1 w in
  match validate env message with
  | None =>
    mkRun (Return tt) w1 (lookups ++ [ConsoleLog (LogError ValidationError)])
  | Some f =>
    if available env MessageCreate then
      let doc := new_doc env message (db w1) f in
      let w2 := o2 (with_db w1 (insert_message (db w1) doc)) in
      if available env MessageFindById then
        let data := PMessage (option_map (reread (db w2) ["sender"; "receiver"])
                                         (findMessage (db w2) (msg_id doc))) in
        mkRun (Return tt) (o3 w2)
              (lookups ++ [DbCall MessageFindById]
                 ++ push_if_live (get (receiver message)) "recieveMessage" data
                 ++ push_if_live (get (sender message)) "recieveMessage" data)
      else
        mkRun (Return tt) w2
              (lookups ++ [DbCall MessageFindById;
                           ConsoleLog (LogError (StorageError MessageFindById))])
    else
      mkRun (Return tt) w1
            (lookups ++ [ConsoleLog (LogError (StorageError MessageCreate))])
  end.
Proof.
  destruct w as [m l d].
  unfold sendMessage_interleaved, try_catch, bind, mapGet, Message_create,
    Message_findById, meanwhile.
  cbn.
  destruct (validate env message) as [f|]; cbn; [|reflexivity].
  destruct (available env MessageCreate); cbn; [|reflexivity].
  destruct (available env MessageFindById); cbn; [|reflexivity].
  unfold push_if_live, when, emit, act.
  destruct (receiver message) as [rk|]; cbn;
    destruct (sender message) as [sk|]; cbn;
    repeat match goal with
           | |- context [JsMap.get m ?k] => destruct (JsMap.get m k); cbn
           | |- context [truthy ?s] => destruct (truthy s); cbn
           end; reflexivity.
Qed.

Lemma forEach_push_to_user (data : Payload) (us : list User) (w : World) :
  forEach us (push_to_user data) w =
  mkRun (Return tt) w (fanout (userSocketMap w) data us).
Proof.
  induction us as [|u us IH]; [reflexivity|].
  cbn [forEach fanout flat_map]. unfold bind at 1.
  assert (E : push_to_user data u w =
              mkRun (Return tt) w
                    (MapGet (Some (user_id u))
                     :: push_if_live (JsMap.get (userSocketMap w) (user_id u))
                                     "recieveChannelMessage" data)).
  { unfold push_to_user, mapGet, bind, push_if_live, when, emit, act. cbn.
    destruct (JsMap.get (userSocketMap w) (user_id u)) as [s|]; cbn;
      [destruct (truthy s)|]; reflexivity. }
  rewrite E. cbn. rewrite IH. reflexivity.
Qed.

(** The whole run of [sendMessageOnChannel], case by case. *)
Lemma sendMessageOnChannel_run (env : Env) (message : ChannelDraft) (w : World) :
  sendMessageOnChannel env message w =
  let m := userSocketMap w in
  let failed w' t e := mkRun (Return tt) w' (t ++ [ConsoleLog (LogError e)]) in
  match validate env (body message) with
  | None => failed w [DbCall MessageCreate] ValidationError
  | Some f =>
    if available env MessageCreate then
      let doc := new_doc env (body message) (db w) f in
      let w1 := with_db w (insert_message (db w) doc) in
      if available env MessageFindById then
        let calls := [DbCall MessageCreate; DbCall MessageFindById;
                      DbCall ChannelFindByIdAndUpdate] in
        match castObjectId env (channel message) with
        | None => failed w1 calls CastError
        | Some cid =>
          if available env ChannelFindByIdAndUpdate then
            let w2 := with_db w1 (update_channels (db w1)
                                    (push_message (channels (db w1)) cid
                                                  (msg_id doc))) in
            if available env ChannelFindById then
              match option_map (reread (db w1) ["sender"])
                               (findMessage (db w1) (msg_id doc)),
                    findChannel (db w2) cid with
              | Some md, Some c =>
                let data := PChannelMessage md (channel_id c) in
                mkRun (Return tt) w2
                      (calls ++ [DbCall ChannelFindById]
                         ++ fanout m data
                              (populate_users (db w2) (channel_members c))
                         ++ fanout m data
                              (populate_users (db w2) (channel_admin c)))
              | _, _ => failed w2 (calls ++ [DbCall ChannelFindById]) TypeError
              end
            else failed w2 (calls ++ [DbCall ChannelFindById])
                        (StorageError ChannelFindById)
          else failed w1 calls (StorageError ChannelFindByIdAndUpdate)
        end
      else failed w1 [DbCall MessageCreate; DbCall MessageFindById]
                  (StorageError MessageFindById)
    else failed w [DbCall MessageCreate] (StorageError MessageCreate)
  end.
Proof.
  destruct w as [m l d].
  unfold sendMessageOnChannel, try_catch, bind at 1 2 3 4 5.
  unfold Message_create, Message_findById, Channel_findByIdAndUpdate,
    Channel_findById, bind at 1 2 3 4. cbn.
  destruct (validate env (body message)) as [f|]; cbn; [|reflexivity].
  destruct (available env MessageCreate); cbn; [|reflexivity].
  destruct (available env MessageFindById); cbn; [|reflexivity].
  destruct (castObjectId env (channel message)) as [cid|]; cbn; [|reflexivity].
  destruct (available env ChannelFindByIdAndUpdate); cbn; [|reflexivity].
  destruct (available env ChannelFindById); cbn; [|reflexivity].
  match goal with
  | |- context [option_map (reread ?d ?p) ?x] =>
    destruct (option_map (reread d p) x) as [md|]
  end; cbn.
  - match goal with
    | |- context [findChannel ?d cid] => destruct (findChannel d cid) as [c|]
    end; cbn; [|reflexivity].
    unfold bind. repeat (rewrite forEach_push_to_user; cbn). reflexivity.
  - reflexivity.
Qed.

(** Case analysis along the run equations: the completed delivery comes
    first, then the failures from the last step back to the first. *)
Ltac direct_cases env message :=
  destruct (validate env message) as [f|];
  [ destruct (available env MessageCreate);
    [ destruct (available env MessageFindById) | ] | ].

Ltac channel_cases env message cid :=
  destruct (validate env (body message)) as [f|];
  [ destruct (available env MessageCreate);
    [ destruct (available env MessageFindById);
      [ destruct (castObjectId env (channel message)) as [cid|];
        [ destruct (available env ChannelFindByIdAndUpdate);
          [ destruct (available env ChannelFindById);
            [ destruct (option_map _ _) as [md|];
              [ destruct (findChannel _ cid) as [c|] | ] | ] | ] | ] | ] | ] | ].

(** ** The state invariant *)

Lemma values_set_In (m : JsMap.t) (k v x : string) :
  In x (JsMap.values (JsMap.set m k v)) -> x = v \/ In x (JsMap.values m).
Proof.
  induction m as [|[k' v'] m IH]; cbn.
  - intros [<-|[]]. now left.
  - destruct (k' =? k); cbn.
    + intros [<-|H]; auto.
    + intros [<-|H]; auto. destruct (IH H); auto.
Qed.

Lemma keys_set_In (m : JsMap.t) (k v x : string) :
  In x (JsMap.keys (JsMap.set m k v)) -> x = k \/ In x (JsMap.keys m).
Proof.
  induction m as [|[k' v'] m IH]; cbn.
  - intros [<-|[]]. now left.
  - destruct (k' =? k); cbn.
    + intros [<-|H]; auto.
    + intros [<-|H]; auto. destruct (IH H); auto.
Qed.

Lemma NoDup_keys_set (m : JsMap.t) (k v : string) :
  NoDup (JsMap.keys m) -> NoDup (JsMap.keys (JsMap.set m k v)).
Proof.
  induction m as [|[k' v'] m IH]; cbn; intros Hnd.
  - constructor; [intros []|constructor].
  - inversion Hnd as [|? ? Hk Hm]; subst.
    destruct (String.eqb_spec k' k) as [->|Hne]; cbn.
    + now constructor.
    + constructor; [|now apply IH].
      intros Hin. apply keys_set_In in Hin. destruct Hin; auto.
Qed.

Lemma NoDup_values_set (m : JsMap.t) (k v : string) :
  NoDup (JsMap.values m) -> ~ In v (JsMap.values m) ->
  NoDup (JsMap.values (JsMap.set m k v)).
Proof.
  induction m as [|[k' v'] m IH]; cbn; intros Hnd Hv.
  - constructor; [intros []|constructor].
  - inversion Hnd as [|? ? Hk Hm]; subst.
    destruct (k' =? k); cbn.
    + constructor; auto.
    + constructor; [|apply IH; auto].
      intros Hin. apply values_set_In in Hin. destruct Hin as [->|Hin]; auto.
Qed.

Lemma delete_incl (m : JsMap.t) (k : string) : incl (JsMap.delete m k) m.
Proof.
  induction m as [|[k' v'] m IH]; cbn; [easy|].
  destruct (k' =? k).
  - now apply incl_tl.
  - apply incl_cons; [now left|now apply incl_tl].
Qed.

Lemma NoDup_map_delete {B} (f : string * string -> B) (m : JsMap.t) (k : string) :
  NoDup (map f m) -> NoDup (map f (JsMap.delete m k)).
Proof.
  induction m as [|[k' v'] m IH]; cbn; intros Hnd; [constructor|].
  inversion Hnd as [|? ? Hk Hm]; subst.
  destruct (k' =? k); [assumption|]. cbn. constructor; [|now apply IH].
  intros Hin. apply Hk. apply in_map_iff in Hin as [x [<- Hx]].
  apply in_map. now apply (delete_incl m k).
Qed.

Lemma directory_ok_set (m : JsMap.t) (k v : string) :
  directory_ok m -> truthy v = true -> ~ In v (JsMap.values m) ->
  directory_ok (JsMap.set m k v).
Proof.
  intros (Hk & Hv & Ht) Htv Hnv. repeat split.
  - now apply NoDup_keys_set.
  - now apply NoDup_values_set.
  - apply Forall_forall. intros x Hx. apply values_set_In in Hx as [->|Hx]; auto.
    now apply (proj1 (Forall_forall _ _) Ht).
Qed.

Lemma directory_ok_delete (m : JsMap.t) (k : string) :
  directory_ok m -> directory_ok (JsMap.delete m k).
Proof.
  intros (Hk & Hv & Ht). repeat split.
  - now apply NoDup_map_delete.
  - now apply NoDup_map_delete.
  - apply Forall_forall. intros x Hx.
    apply (proj1 (Forall_forall _ _) Ht).
    apply in_map_iff in Hx as [e [<- He]]. apply in_map.
    now apply (delete_incl m k).
Qed.

Lemma sendMessage_preserves (env : Env) (message : Draft) (w : World) :
  userSocketMap (world (sendMessage env message w)) = userSocketMap w
  /\ listeners (world (sendMessage env message w)) = listeners w
  /\ (db_ok (db w) -> db_ok (db (world (sendMessage env message w)))).
Proof.
  rewrite sendMessage_run. cbv zeta.
  direct_cases env message; cbn; repeat split; auto;
    intros; now apply db_ok_insert.
Qed.

Lemma sendMessageOnChannel_preserves (env : Env) (message : ChannelDraft)
      (w : World) :
  userSocketMap (world (sendMessageOnChannel env message w)) = userSocketMap w
  /\ listeners (world (sendMessageOnChannel env message w)) = listeners w
  /\ (db_ok (db w) -> db_ok (db (world (sendMessageOnChannel env message w)))).
Proof.
  rewrite sendMessageOnChannel_run. cbv zeta.
  channel_cases env message cid; cbn; repeat split; auto;
    intros; now apply db_ok_insert.
Qed.

Lemma receive_run (env : Env) (sid : string) (e : ClientEvent) (w : World) :
  receive env sid e w =
  if registered w sid (event_name e) then
    match e with
    | EvSendMessage message => sendMessage env message w
    | EvSendMessageOnChannel message => sendMessageOnChannel env message w
    | EvDisconnect => disconnect sid w
    end
  else mkRun (Return tt) w [].
Proof.
  unfold receive, bind, get_world. cbn [outcome world trace app].
  destruct (registered w sid (event_name e)); [|reflexivity].
  destruct e as [message|message|];
    match goal with |- context [outcome ?r] => now destruct r end.
Qed.

Lemma handle_ok (env : Env) (i : Input) (seen : list string) (w : World) :
  fresh_sockets seen [(env, i)] -> world_ok seen w ->
  world_ok (seen_after seen [(env, i)]) (world (handle env i w)).
Proof.
  intros Hf (Hd & Hi & Hdb). destruct i as [s|sid e]; cbn [handle seen_after].
  - destruct Hf as (Ht & Hn & _). rewrite connection_world.
    unfold world_ok. cbn [userSocketMap db].
    destruct (handshake_userId s) as [u|]; [destruct (truthy u)|].
    + split; [|split; [|exact Hdb]].
      * apply directory_ok_set; auto.
      * intros x Hx. apply values_set_In in Hx as [->|Hx]; [now left|].
        right. now apply Hi.
    + split; [exact Hd|split; [now apply incl_tl|exact Hdb]].
    + split; [exact Hd|split; [now apply incl_tl|exact Hdb]].
  - rewrite receive_run.
    destruct (registered w sid (event_name e));
      [|split; [exact Hd|split; [exact Hi|exact Hdb]]].
    destruct e as [message|message|].
    + destruct (sendMessage_preserves env message w) as (Em & _ & Hok).
      unfold world_ok. rewrite Em. auto.
    + destruct (sendMessageOnChannel_preserves env message w) as (Em & _ & Hok).
      unfold world_ok. rewrite Em. auto.
    + rewrite disconnect_world.
      destruct (first_user_of (userSocketMap w) sid) as [u|];
        [|split; [exact Hd|split; [exact Hi|exact Hdb]]].
      unfold world_ok. cbn. split; [|split; [|exact Hdb]].
      * now apply directory_ok_delete.
      * intros x Hx. apply Hi. apply in_map_iff in Hx as [en [<- Hen]].
        apply in_map. now apply (delete_incl (userSocketMap w) u).
Qed.

(** The invariant holds along every sequence of inputs whose connections
    carry fresh socket ids. *)
Lemma serve_ok (inputs : list (Env * Input)) :
  forall (seen : list string) (w : World),
    fresh_sockets seen inputs -> world_ok seen w ->
    world_ok (seen_after seen inputs) (world (serve inputs w)).
Proof.
  induction inputs as [|[env i] rest IH]; intros seen w Hf Hw; [exact Hw|].
  cbn [serve]. unfold bind. cbn [outcome world trace].
  assert (Ho : outcome (handle env i w) = Return tt).
  { destruct i as [s|sid e]; cbn [handle].
    - unfold connection. destruct (handshake_userId s) as [u|];
        [destruct (truthy u)|]; reflexivity.
    - rewrite receive_run.
      destruct (registered w sid (event_name e)); [|reflexivity].
      destruct e.
      + now rewrite sendMessage_run; cbv zeta;
          repeat match goal with |- context [match ?x with _ => _ end] =>
                                 destruct x end.
      + now rewrite sendMessageOnChannel_run; cbv zeta;
          repeat match goal with |- context [match ?x with _ => _ end] =>
                                 destruct x end.
      + unfold disconnect, bind. cbn.
        destruct (first_user_of (userSocketMap w) sid); reflexivity. }
  rewrite Ho. cbn [world].
  assert (H1 : world_ok (seen_after seen [(env, i)]) (world (handle env i w))).
  { apply handle_ok; auto. destruct i; cbn in *; tauto. }
  destruct i as [s|sid e]; cbn [seen_after fresh_sockets] in *;
    apply IH; auto; tauto.
Qed.

(** ** Direct delivery *)

Lemma same_socket_same_user (m : JsMap.t) (a b s : string) :
  NoDup (JsMap.values m) -> In (a, s) m -> In (b, s) m -> a = b.
Proof.
  induction m as [|[k v] m IH]; cbn; [easy|].
  intros Hnd Ha Hb. inversion Hnd as [|? ? Hv Hm]; subst.
  destruct Ha as [Ha|Ha], Hb as [Hb|Hb].
  - congruence.
  - injection Ha as -> ->. exfalso. apply Hv.
    now apply (in_map snd) in Hb.
  - injection Hb as -> ->. exfalso. apply Hv.
    now apply (in_map snd) in Ha.
  - now apply IH.
Qed.

Lemma bound_socket_truthy (m : JsMap.t) (k s : string) :
  directory_ok m -> JsMap.get m k = Some s -> truthy s = true.
Proof.
  intros (_ & _ & Ht) Hg. apply get_In in Hg.
  apply (proj1 (Forall_forall _ _) Ht). now apply (in_map snd) in Hg.
Qed.

Lemma populate_id (d : Db) (p : string) (m : MessageData) :
  data_id (populate d p m) = data_id m.
Proof.
  unfold populate. destruct (p =? "sender"); [reflexivity|].
  destruct (p =? "receiver"); reflexivity.
Qed.

Lemma reread_id (d : Db) (paths : list string) (doc : MessageDoc) :
  data_id (reread d paths doc) = msg_id doc.
Proof.
  unfold reread. change (msg_id doc) with (data_id (unpopulated doc)).
  generalize (unpopulated doc). induction paths as [|p ps IH]; intros m; cbn.
  - reflexivity.
  - now rewrite IH, populate_id.
Qed.



Lemma handle_returns (env : Env) (i : Input) (w : World) :
  outcome (handle env i w) = Return tt.
Proof.
  destruct i as [s|sid e]; cbn [handle].
  - unfold connection. destruct (handshake_userId s) as [u|];
      [destruct (truthy u)|]; reflexivity.
  - rewrite receive_run.
    destruct (registered w sid (event_name e)); [|reflexivity].
    destruct e as [message|message|].
    + rewrite sendMessage_run. cbv zeta. direct_cases env message; reflexivity.
    + rewrite sendMessageOnChannel_run. cbv zeta.
      channel_cases env message cid; reflexivity.
    + unfold disconnect, bind. cbn.
      destruct (first_user_of (userSocketMap w) sid); reflexivity.
Qed.

(** ** The handler across its awaits *)

Lemma sendMessage_interleaved_alone (env : Env) (message : Draft) (w : World) :
  sendMessage_interleaved env message (handled []) (handled []) (handled []) w
  = sendMessage env message w.
Proof.
  rewrite sendMessage_interleaved_run, sendMessage_run. reflexivity.
Qed.

Lemma handle_appends (env : Env) (i : Input) (w : World) :
  exists added,
    messages (db (world (handle env i w))) = messages (db w) ++ added.
Proof.
  assert (Hsame : exists added, messages (db w) = messages (db w) ++ added)
    by (exists []; now rewrite app_nil_r).
  destruct i as [s|sid e]; cbn [handle].
  - now rewrite connection_world.
  - rewrite receive_run.
    destruct (registered w sid (event_name e)); [|exact Hsame].
    destruct e as [message|message|].
    + rewrite sendMessage_run. cbv zeta.
      direct_cases env message; cbn; try exact Hsame; eexists; reflexivity.
    + rewrite sendMessageOnChannel_run. cbv zeta.
      channel_cases env message cid; cbn; try exact Hsame; eexists; reflexivity.
    + rewrite disconnect_world.
      destruct (first_user_of (userSocketMap w) sid); exact Hsame.
Qed.

Lemma handle_db_ok (env : Env) (i : Input) (w : World) :
  db_ok (db w) -> db_ok (db (world (handle env i w))).
Proof.
  intros Hok. destruct i as [s|sid e]; cbn [handle].
  - now rewrite connection_world.
  - rewrite receive_run.
    destruct (registered w sid (event_name e)); [|exact Hok].
    destruct e as [message|message|].
    + now apply sendMessage_preserves.
    + now apply sendMessageOnChannel_preserves.
    + rewrite disconnect_world.
      destruct (first_user_of (userSocketMap w) sid); exact Hok.
Qed.

Lemma handled_cons (env : Env) (i : Input) (rest : list (Env * Input))
      (w : World) :
  handled ((env, i) :: rest) w = handled rest (world (handle env i w)).
Proof.
  unfold handled. cbn [serve]. unfold bind.
  now rewrite (handle_returns env i w).
Qed.

(** The handlers of the server keep the store, however many run during a
    wait. *)
Lemma handled_keeps_store (inputs : list (Env * Input)) :
  keeps_store (handled inputs).
Proof.
  induction inputs as [|[env i] rest IH]; intros w.
  - split; [easy|]. exists []. cbn. now rewrite app_nil_r.
  - rewrite handled_cons.
    destruct (IH (world (handle env i w))) as [Hok [added Hadd]].
    destruct (handle_appends env i w) as [first Hfirst].
    split.
    + intros H. now apply Hok, handle_db_ok.
    + exists (first ++ added). now rewrite Hadd, Hfirst, app_assoc.
Qed.

Lemma findMessage_kept (d d' : Db) (added : list MessageDoc) (id : nat)
      (doc : MessageDoc) :
  messages d' = messages d ++ added ->
  findMessage d id = Some doc -> findMessage d' id = Some doc.
Proof.
  unfold findMessage. intros -> H.
  induction (messages d) as [|x l IH]; [discriminate|].
  cbn [app find] in *. destruct (msg_id x =? id)%nat; auto.
Qed.

(** The run of a delivery whose record is created and re-read, whatever
    else is handled during its waits: the pushes use the socket ids read
    from the directory of the start. *)
Lemma sendMessage_interleaved_persisted
      (env : Env) (message : Draft) (o1 o2 o3 : World -> World) (w : World)
      (f : ObjectId * option ObjectId * string) :
  db_ok (db w) ->
  keeps_store o1 -> keeps_store o2 -> keeps_store o3 ->
  validate env message = Some f ->
  available env MessageCreate = true ->
  available env MessageFindById = true ->
  exists doc md earlier later w',
    sendMessage_interleaved env message o1 o2 o3 w
    = mkRun (Return tt) w'
            ([MapGet (sender message); MapGet (receiver message);
              DbCall MessageCreate; DbCall MessageFindById]
               ++ push_if_live (match receiver message with
                                | Some k => JsMap.get (userSocketMap w) k
                                | None => None
                                end) "recieveMessage" (PMessage (Some md))
               ++ push_if_live (match sender message with
                                | Some k => JsMap.get (userSocketMap w) k
                                | None => None
                                end) "recieveMessage" (PMessage (Some md)))
    /\ messages (db w') = messages (db w) ++ earlier ++ doc :: later
    /\ data_id md = msg_id doc
    /\ msg_sender doc = fst (fst f) /\ msg_receiver doc = snd (fst f).
Proof.
  intros Hok H1 H2 H3 Hv Hc Hf.
  rewrite sendMessage_interleaved_run. cbv zeta. rewrite Hv, Hc, Hf.
  set (w1 := o1 w).
  set (doc := new_doc env message (db w1) f).
  set (w1' := with_db w1 (insert_message (db w1) doc)).
  set (w2 := o2 w1').
  destruct (H1 w) as [Hok1 [earlier He]]. fold w1 in Hok1, He.
  destruct (H2 w1') as [_ [between Hb]]. fold w2 in Hb.
  destruct (H3 w2) as [_ [after Ha]].
  assert (Hfound : findMessage (db w2) (msg_id doc) = Some doc).
  { apply (findMessage_kept (db w1') (db w2) between _ _ Hb).
    unfold w1'. cbn [db with_db].
    apply findMessage_fresh; [now apply Hok1|reflexivity]. }
  rewrite Hfound. cbn [option_map].
  exists doc, (reread (db w2) ["sender"; "receiver"] doc), earlier,
    (between ++ after), (o3 w2).
  split; [reflexivity|]. split; [|split; [apply reread_id|split; reflexivity]].
  cbn [world]. rewrite Ha, Hb. unfold w1', insert_message.
  cbn [db with_db messages]. rewrite He. now rewrite <- !app_assoc.
Qed.


Lemma sample_inputs_fresh :
  fresh_sockets [] [(Sample.env, Connect Sample.sock_a);
                    (Sample.env, Connect Sample.sock_b);
                    (Sample.env, Connect Sample.sock_x)].
Proof.
  cbn. repeat split; try reflexivity; intros H;
    repeat (destruct H as [H|H]; [discriminate|]); exact H.
Qed.

Lemma sample_world0_ok : world_ok [] Sample.world0.
Proof.
  split; [|split].
  - repeat split; constructor.
  - intros x [].
  - constructor.
Qed.

Lemma sample_world1_ok : world_ok ["sock-x"; "sock-b"; "sock-a"] Sample.world1.
Proof.
  exact (serve_ok _ [] Sample.world0 sample_inputs_fresh sample_world0_ok).
Qed.



Lemma In_insert_by_timeStamp (x m : MessageDoc) (l : list MessageDoc) :
  In x (insert_by_timeStamp m l) <-> m = x \/ In x l.
Proof.
  induction l as [|y l IH]; cbn [insert_by_timeStamp In].
  - tauto.
  - destruct (msg_timeStamp m <? msg_timeStamp y)%nat; cbn [In].
    + tauto.
    + rewrite IH. tauto.
Qed.

Lemma In_sort_by_timeStamp (x : MessageDoc) (l : list MessageDoc) :
  In x (sort_by_timeStamp l) <-> In x l.
Proof.
  unfold sort_by_timeStamp. rewrite (in_rev l).
  induction (rev l) as [|y l' IH]; cbn; [tauto|].
  rewrite In_insert_by_timeStamp, IH. tauto.
Qed.

(** What a successful validation says about the cast of the two ends. *)
Lemma validate_cast (env : Env) (message : Draft)
      (f : ObjectId * option ObjectId * string) :
  validate env message = Some f ->
  (exists s, sender message = Some s /\ castObjectId env s = Some (fst (fst f)))
  /\ (forall r, receiver message = Some r ->
                exists rid, castObjectId env r = Some rid
                            /\ snd (fst f) = Some rid).
Proof.
  unfold validate.
  destruct (sender message) as [s|]; [|discriminate].
  destruct (castObjectId env s) as [sid|] eqn:Es; [|discriminate].
  destruct (receiver message) as [r|].
  - destruct (castObjectId env r) as [rid|] eqn:Er; cbn; [|discriminate].
    destruct (messageType message) as [ty|]; [|discriminate].
    destruct (_ && _); [|discriminate].
    intros H. injection H as <-. split; [eauto|].
    intros r' Hr. injection Hr as <-. eauto.
  - destruct (messageType message) as [ty|]; [|discriminate].
    destruct (_ && _); [|discriminate].
    intros H. injection H as <-. split; [eauto|]. discriminate.
Qed.





(** The scenario of the two sends: with alice and bob bound both sockets
    get one push of message 0; after bob's socket closes only alice's gets
    the push of message 1, and bob's history then lists both messages. *)
Example scenario_alice_bob :
  let r1 := sendMessage Sample.env Sample.hi Sample.world1 in
  let w := world (handle Sample.env (Receive "sock-b" EvDisconnect) (world r1)) in
  let r2 := sendMessage Sample.env Sample.hi w in
  map (fun a => match a with
                | Emit room event data => (room, event, carried_id data)
                | _ => ("", "", None)
                end) (pushes (trace r1))
  = [("sock-b", "recieveMessage", Some 0); ("sock-a", "recieveMessage", Some 0)]
  /\ map (fun a => match a with
                   | Emit room event data => (room, event, carried_id data)
                   | _ => ("", "", None)
                   end) (pushes (trace r2))
     = [("sock-a", "recieveMessage", Some 1)]
  /\ match outcome (getMessages Sample.env
                                (mkRequest (Some Sample.bob) (Some Sample.alice))
                                (world r2)) with
     | Return (mkResponse 200 (BodyMessages l)) => map msg_id l = [0; 1]
     | _ => False
     end.
Proof. vm_compute. repeat split. Qed.

(** ** Failed persistence *)











(** ** Order of the steps of direct delivery *)

Lemma push_if_live_pushes (s : option string) (event : string) (data : Payload) :
  forallb is_push (push_if_live s event data) = true.
Proof.
  unfold push_if_live. destruct s as [s|]; [destruct (truthy s)|]; reflexivity.
Qed.

Lemma pushes_only (t : list Action) :
  forallb is_push t = true -> forallb (fun a => negb (is_lookup a)) t = true.
Proof.
  rewrite !forallb_forall. intros H a Ha. specialize (H a Ha).
  now destruct a.
Qed.

(** C4 (as stated) fails: in the delivery of alice's message to bob the
    two directory lookups are the first actions of the run; both precede
    the creation of the record, and no lookup follows a persistence call. *)
Lemma C4_lookup_precedes_persistence :
  let t := trace (sendMessage Sample.env Sample.hi Sample.world1) in
  firstn 3 t = [MapGet (Some Sample.alice); MapGet (Some Sample.bob);
                DbCall MessageCreate]
  /\ before is_lookup is_call t = true
  /\ before is_call is_lookup t = false.
Proof. vm_compute. repeat split. Qed.

(** C4 (amended). Direct delivery first looks up the sender and then the
    receiver in the directory, then creates the record, then re-reads it,
    and only then pushes: no lookup is made after the creation call, and a
    run with any push has stored the record and has made both persistence
    calls before its first push, the pushes being its last actions. *)
Theorem C4_direct_lookup_persist_push_order (env : Env) (w : World)
        (message : Draft) :
  let r := sendMessage env message w in
  (exists rest,
      trace r = [MapGet (sender message); MapGet (receiver message);
                 DbCall MessageCreate] ++ rest
      /\ forallb (fun a => negb (is_lookup a)) rest = true)
  /\ (pushes (trace r) <> [] ->
      exists f ps,
        validate env message = Some f
        /\ messages (db (world r))
           = messages (db w) ++ [new_doc env message (db w) f]
        /\ trace r = [MapGet (sender message); MapGet (receiver message);
                      DbCall MessageCreate; DbCall MessageFindById] ++ ps
        /\ forallb is_push ps = true).
Proof.
  cbv zeta. rewrite sendMessage_run. cbv zeta.
  direct_cases env message;
    [|split; [eexists; split; reflexivity|now cbn]..].
  cbn [trace world].
  match goal with
  | |- context [push_if_live ?a ?e ?d ++ push_if_live ?b ?e ?d] =>
    assert (Hp : forallb is_push (push_if_live a e d ++ push_if_live b e d) = true)
      by (rewrite forallb_app, !push_if_live_pushes; reflexivity)
  end.
  split.
  - eexists. split; [reflexivity|]. cbn [app forallb is_lookup negb andb].
    now apply pushes_only.
  - intros _. exists f. eexists. repeat split. exact Hp.
Qed.

Lemma C4_direct_lookup_persist_push_order_witness :
  let r := sendMessage Sample.env Sample.hi Sample.world1 in
  exists f ps,
    validate Sample.env Sample.hi = Some f
    /\ messages (db (world r))
       = messages (db Sample.world1)
           ++ [new_doc Sample.env Sample.hi (db Sample.world1) f]
    /\ trace r = [MapGet (sender Sample.hi); MapGet (receiver Sample.hi);
                  DbCall MessageCreate; DbCall MessageFindById] ++ ps
    /\ forallb is_push ps = true.
Proof.
  apply (proj2 (C4_direct_lookup_persist_push_order
                  Sample.env Sample.world1 Sample.hi)).
  vm_compute. discriminate.
Defined.

(** ** Event labels *)

Lemma labels_app (t1 t2 : list Action) :
  labels (t1 ++ t2) = labels t1 ++ labels t2.
Proof. unfold labels. now rewrite flat_map_app. Qed.

Lemma labels_push_if_live (s : option string) (event : string) (data : Payload) :
  Forall (eq event) (labels (push_if_live s event data)).
Proof.
  unfold push_if_live. destruct s as [s|]; [destruct (truthy s)|]; cbn; auto.
Qed.

Lemma labels_fanout (m : JsMap.t) (data : Payload) (us : list User) :
  Forall (eq "recieveChannelMessage") (labels (fanout m data us)).
Proof.
  induction us as [|u us IH]; cbn; [constructor|].
  change (fanout m data us) with
    (flat_map (fun u => MapGet (Some (user_id u))
                        :: push_if_live (JsMap.get m (user_id u))
                                        "recieveChannelMessage" data) us) in IH.
  rewrite labels_app. apply Forall_app. split; [|exact IH].
  apply labels_push_if_live.
Qed.

(** C8 (as stated) fails: the two pushes of alice's message to bob carry
    the label ["recieveMessage"], and the pushes of her channel message the
    label ["recieveChannelMessage"]; neither is the label the interface
    names. *)
Lemma C8_labels_are_not_as_specified :
  labels (trace (sendMessage Sample.env Sample.hi Sample.world1))
  = ["recieveMessage"; "recieveMessage"]
  /\ labels (trace (sendMessageOnChannel
                      Sample.env (mkChannelDraft Sample.hi Sample.general)
                      Sample.world1))
     = ["recieveChannelMessage"; "recieveChannelMessage"]
  /\ "recieveMessage" <> "receiveMessage"
  /\ "recieveChannelMessage" <> "receiveChannelMessage".
Proof. vm_compute. repeat split; discriminate. Qed.

(** C8 (amended). Every push of direct delivery is emitted under the label
    ["recieveMessage"] and every push of channel delivery under
    ["recieveChannelMessage"]. *)
Theorem C8_fixed_event_labels (env : Env) (w : World) :
  (forall message : Draft,
      Forall (eq "recieveMessage") (labels (trace (sendMessage env message w))))
  /\ (forall message : ChannelDraft,
         Forall (eq "recieveChannelMessage")
                (labels (trace (sendMessageOnChannel env message w)))).
Proof.
  split; intros message.
  - rewrite sendMessage_run. cbv zeta.
    direct_cases env message; [|cbn; constructor..].
    cbn [trace]. rewrite !labels_app. cbn [labels flat_map app].
    apply Forall_app. split; apply labels_push_if_live.
  - rewrite sendMessageOnChannel_run. cbv zeta.
    channel_cases env message cid; [|cbn; constructor..].
    cbn [trace]. rewrite !labels_app. cbn [labels flat_map app].
    apply Forall_app. split; apply labels_fanout.
Qed.

(** ** Channel delivery *)

Lemma findChannel_Some (d : Db) (cid : ObjectId) (c : ChannelDoc) :
  findChannel d cid = Some c -> In c (channels d) /\ channel_id c = cid.
Proof.
  unfold findChannel. intros H. apply find_some in H as [Hin He].
  split; [exact Hin|]. now apply String.eqb_eq.
Qed.

Lemma push_message_cons (c : ChannelDoc) (cs : list ChannelDoc)
      (cid : ObjectId) (mid : nat) :
  push_message (c :: cs) cid mid
  = if channel_id c =? cid then append_message c mid :: cs
    else c :: push_message cs cid mid.
Proof. reflexivity. Qed.

Lemma findChannel_push (d : Db) (cid : ObjectId) (mid : nat) :
  findChannel (update_channels d (push_message (channels d) cid mid)) cid
  = option_map (fun c => append_message c mid) (findChannel d cid).
Proof.
  unfold findChannel, update_channels. cbn [channels].
  induction (channels d) as [|c cs IH]; [reflexivity|].
  rewrite push_message_cons. cbn [find].
  destruct (channel_id c =? cid) eqn:E.
  - cbn [find]. change (channel_id (append_message c mid)) with (channel_id c).
    rewrite E. reflexivity.
  - cbn [find]. rewrite E. exact IH.
Qed.


(** The world a channel delivery leaves once the record is created and
    re-read and the append is served. *)
Lemma sendMessageOnChannel_world (env : Env) (message : ChannelDraft) (w : World)
      (f : ObjectId * option ObjectId * string) (cid : ObjectId) :
  validate env (body message) = Some f ->
  available env MessageCreate = true ->
  available env MessageFindById = true ->
  castObjectId env (channel message) = Some cid ->
  available env ChannelFindByIdAndUpdate = true ->
  let doc := new_doc env (body message) (db w) f in
  let d1 := insert_message (db w) doc in
  world (sendMessageOnChannel env message w)
  = with_db w (update_channels d1 (push_message (channels d1) cid (msg_id doc))).
Proof.
  intros Hv Hc Hf Hcast Hu. rewrite sendMessageOnChannel_run. cbv zeta.
  rewrite Hv, Hc, Hf, Hcast, Hu.
  destruct (available env ChannelFindById); [|reflexivity].
  destruct (option_map _ _) as [md|]; [|reflexivity].
  destruct (findChannel _ cid) as [c|]; reflexivity.
Qed.

(** C9 (as stated) fails: a valid message sent to a channel id that casts
    but names no channel is stored, and no channel lists it. *)
Lemma C9_message_to_missing_channel_is_orphan :
  let r := sendMessageOnChannel Sample.env
                                (mkChannelDraft Sample.hi Sample.nowhere)
                                Sample.world1 in
  findChannel (db Sample.world1) Sample.nowhere = None
  /\ exists doc, In doc (messages (db (world r))) /\ ~ linked (db (world r)) doc.
Proof.
  cbv zeta. split; [reflexivity|].
  eexists. split.
  - vm_compute. left. reflexivity.
  - intros (c & Hc & Hin). vm_compute in Hc.
    destruct Hc as [<-|[<-|[]]]; exact Hin.
Qed.

(** C9 (amended). When the record of a channel message is created and
    re-read, the channel id casts to the id of an existing channel and the
    append is served, the delivery leaves the stored record listed by that
    channel: the channel's message-reference list is the former one with
    the new id at its end. *)
Theorem C9_channel_message_linked_when_channel_exists
        (env : Env) (w : World) (message : ChannelDraft)
        (f : ObjectId * option ObjectId * string) (cid : ObjectId)
        (c : ChannelDoc) :
  validate env (body message) = Some f ->
  available env MessageCreate = true ->
  available env MessageFindById = true ->
  castObjectId env (channel message) = Some cid ->
  findChannel (db w) cid = Some c ->
  available env ChannelFindByIdAndUpdate = true ->
  let r := sendMessageOnChannel env message w in
  let doc := new_doc env (body message) (db w) f in
  messages (db (world r)) = messages (db w) ++ [doc]
  /\ findChannel (db (world r)) cid = Some (append_message c (msg_id doc))
  /\ linked (db (world r)) doc.
Proof.
  intros Hv Hc Hf Hcast Hch Hu r doc. subst r.
  rewrite (sendMessageOnChannel_world env message w f cid Hv Hc Hf Hcast Hu).
  cbv zeta. fold doc. cbn [db with_db].
  assert (E : findChannel
                (update_channels (insert_message (db w) doc)
                   (push_message (channels (insert_message (db w) doc)) cid
                                 (msg_id doc))) cid
              = Some (append_message c (msg_id doc))).
  { rewrite findChannel_push.
    change (findChannel (insert_message (db w) doc) cid)
      with (findChannel (db w) cid).
    now rewrite Hch. }
  split; [reflexivity|]. split; [exact E|].
  exists (append_message c (msg_id doc)). split.
  - now apply findChannel_Some in E.
  - cbn. apply in_or_app. right. now left.
Qed.

Lemma C9_channel_message_linked_when_channel_exists_witness :
  let m := mkChannelDraft Sample.hi Sample.general in
  let r := sendMessageOnChannel Sample.env m Sample.world1 in
  let doc := new_doc Sample.env Sample.hi (db Sample.world1)
                     (Sample.alice, Some Sample.bob, "text") in
  messages (db (world r)) = messages (db Sample.world1) ++ [doc]
  /\ findChannel (db (world r)) Sample.general
     = Some (append_message
               (mkChannelDoc Sample.general "general"
                             [Sample.bob; Sample.carol] [Sample.alice] [])
               (msg_id doc))
  /\ linked (db (world r)) doc.
Proof.
  apply (C9_channel_message_linked_when_channel_exists
           Sample.env Sample.world1 (mkChannelDraft Sample.hi Sample.general)
           (Sample.alice, Some Sample.bob, "text") Sample.general
           (mkChannelDoc Sample.general "general"
                         [Sample.bob; Sample.carol] [Sample.alice] []));
    reflexivity.
Defined.

Lemma findUser_Some (d : Db) (id : ObjectId) (u : User) :
  findUser d id = Some u -> user_id u = id.
Proof.
  unfold findUser. intros H. apply find_some in H as [_ He].
  now apply String.eqb_eq.
Qed.


Lemma populate_users_same_users (d d' : Db) (ids : list ObjectId) :
  users d' = users d -> populate_users d' ids = populate_users d ids.
Proof.
  intros E. unfold populate_users, findUser. now rewrite E.
Qed.



Lemma pushes_to_pushes (h : string) (t : list Action) :
  pushes_to h t = pushes_to h (pushes t).
Proof.
  unfold pushes_to, pushes. induction t as [|a t IH]; [reflexivity|].
  destruct a; cbn; try exact IH.
  destruct (room =? h); cbn; now rewrite IH.
Qed.


Lemma resolve_app (m : JsMap.t) (l1 l2 : list string) :
  resolve m (l1 ++ l2) = resolve m l1 ++ resolve m l2.
Proof. unfold resolve. apply flat_map_app. Qed.




(** alice is a member and an admin of the staff channel: her socket gets
    the push twice, bob's once. *)
Example staff_message_reaches_alice_twice :
  let r := sendMessageOnChannel Sample.env
                                (mkChannelDraft Sample.hi Sample.staff)
                                Sample.world1 in
  map (fun a => match a with
                | Emit room _ data => (room, carried_id data)
                | _ => ("", None)
                end) (pushes (trace r))
  = [("sock-a", Some 0); ("sock-b", Some 0); ("sock-a", Some 0)]
  /\ List.length (pushes_to "sock-a" (trace r)) = 2
  /\ List.length (pushes_to "sock-b" (trace r)) = 1.
Proof. vm_compute. repeat split. Qed.

(** ** Who may submit *)

(** The delivery handlers neither read nor change the listeners. *)
Lemma sendMessage_frame (env : Env) (message : Draft) (w : World)
      (l : list (string * string)) :
  sendMessage env message (with_listeners w l)
  = reframe (sendMessage env message w) l.
Proof.
  rewrite !sendMessage_run. cbv zeta. unfold reframe.
  cbn [userSocketMap db with_listeners with_db].
  direct_cases env message; reflexivity.
Qed.

Lemma sendMessageOnChannel_frame (env : Env) (message : ChannelDraft) (w : World)
      (l : list (string * string)) :
  sendMessageOnChannel env message (with_listeners w l)
  = reframe (sendMessageOnChannel env message w) l.
Proof.
  rewrite !sendMessageOnChannel_run. cbv zeta. unfold reframe.
  cbn [userSocketMap db with_listeners with_db].
  channel_cases env message cid; reflexivity.
Qed.

Lemma same_but_listeners (w w2 : World) :
  userSocketMap w2 = userSocketMap w -> db w2 = db w ->
  w2 = with_listeners w (listeners w2).
Proof.
  destruct w, w2. cbn. intros -> ->. reflexivity.
Qed.

Lemma registered_after_connection (s : Socket) (w : World) (event : string) :
  In event ["sendMessage"; "sendMessageOnChannel"; "disconnect"] ->
  registered (world (connection s w)) (socket_id s) event = true.
Proof.
  intros Hin. rewrite connection_world. unfold registered. cbn [listeners].
  rewrite existsb_app. apply orb_true_iff. right.
  cbn. rewrite String.eqb_refl. cbn.
  destruct Hin as [<-|[<-|[<-|[]]]]; reflexivity.
Qed.

(** C10. The connection handler registers the two submission listeners on
    every socket, whether or not the handshake carried a [userId]; what a
    submission does (its trace, its outcome, the store and the directory it
    leaves) is the same from whichever registered socket it arrives and in
    any two worlds that agree on the directory and the store; and a message
    submitted over a connection that announced no identity is handled as
    [sendMessage] handles it anywhere: it is stored under the sender the
    message claims and pushed to that sender's and the receiver's sockets. *)
Theorem C10_any_connection_may_submit (env : Env) (w : World) :
  (forall s : Socket,
      registered (world (connection s w)) (socket_id s) "sendMessage" = true
      /\ registered (world (connection s w)) (socket_id s)
                    "sendMessageOnChannel" = true)
  /\ (forall (w2 : World) (s1 s2 : string) (e : ClientEvent),
         e <> EvDisconnect ->
         userSocketMap w2 = userSocketMap w ->
         db w2 = db w ->
         registered w s1 (event_name e) = true ->
         registered w2 s2 (event_name e) = true ->
         let r1 := receive env s1 e w in
         let r2 := receive env s2 e w2 in
         trace r2 = trace r1
         /\ outcome r2 = outcome r1
         /\ db (world r2) = db (world r1)
         /\ userSocketMap (world r2) = userSocketMap (world r1))
  /\ (forall (sid : string) (message : Draft),
         let w' := world (connection (mkSocket sid None) w) in
         let r := receive env sid (EvSendMessage message) w' in
         userSocketMap w' = userSocketMap w
         /\ trace r = trace (sendMessage env message w)
         /\ db (world r) = db (world (sendMessage env message w))
         /\ (forall f,
                validate env message = Some f ->
                available env MessageCreate = true ->
                messages (db (world r))
                = messages (db w) ++ [new_doc env message (db w) f]
                /\ exists A, sender message = Some A
                             /\ castObjectId env A
                                = Some (msg_sender (new_doc env message (db w) f)))).
Proof.
  split; [|split].
  - intros s. split; apply registered_after_connection; cbn; auto.
  - intros w2 s1 s2 e He Hm Hdb H1 H2 r1 r2. subst r1 r2.
    rewrite !receive_run, H1, H2.
    rewrite (same_but_listeners w w2 Hm Hdb).
    destruct e as [message|message|]; [| |congruence].
    + rewrite sendMessage_frame. now cbn.
    + rewrite sendMessageOnChannel_frame. now cbn.
  - intros sid message w' r.
    assert (Ew : w' = with_listeners w (listeners w')).
    { apply same_but_listeners; subst w'; now rewrite connection_world. }
    assert (Er : r = reframe (sendMessage env message w) (listeners w')).
    { subst r. rewrite receive_run.
      replace (registered w' sid (event_name (EvSendMessage message))) with true
        by (symmetry; apply (registered_after_connection (mkSocket sid None) w);
            cbn; auto).
      rewrite Ew at 1. apply sendMessage_frame. }
    split; [subst w'; now rewrite connection_world|].
    rewrite Er. cbn [reframe trace world db with_listeners].
    split; [reflexivity|]. split; [reflexivity|].
    intros f Hv Hc. rewrite sendMessage_run. cbv zeta. rewrite Hv, Hc.
    split.
    + destruct (available env MessageFindById); reflexivity.
    + destruct (validate_cast env message f Hv) as ((A & HA & Hcast) & _).
      exists A. split; [exact HA|exact Hcast].
Qed.

Lemma C10_any_connection_may_submit_witness :
  let r1 := receive Sample.env "sock-a" (EvSendMessage Sample.hi) Sample.world1 in
  let r2 := receive Sample.env "sock-x" (EvSendMessage Sample.hi) Sample.world1 in
  trace r2 = trace r1
  /\ outcome r2 = outcome r1
  /\ db (world r2) = db (world r1)
  /\ userSocketMap (world r2) = userSocketMap (world r1).
Proof.
  apply (proj1 (proj2 (C10_any_connection_may_submit Sample.env Sample.world1))
               Sample.world1 "sock-a" "sock-x" (EvSendMessage Sample.hi)).
  - discriminate.
  - reflexivity.
  - reflexivity.
  - reflexivity.
  - reflexivity.
Defined.

(** The connection without identity submits a message in alice's name: it
    is stored with alice as sender and pushed to bob's and alice's
    sockets. *)
Example unidentified_socket_sends_as_alice :
  let r := receive Sample.env "sock-x" (EvSendMessage Sample.hi) Sample.world1 in
  JsMap.values (userSocketMap Sample.world1) = ["sock-a"; "sock-b"]
  /\ map msg_sender (messages (db (world r))) = [Sample.alice]
  /\ map (fun a => match a with
                   | Emit room event data => (room, event, carried_id data)
                   | _ => ("", "", None)
                   end) (pushes (trace r))
     = [("sock-b", "recieveMessage", Some 0); ("sock-a", "recieveMessage", Some 0)].
Proof. vm_compute. repeat split. Qed.

(** ** Closing a connection *)

Lemma first_user_of_matched (m : JsMap.t) (sid u : string) :
  In (u, sid) m -> exists u', first_user_of m sid = Some u'.
Proof.
  induction m as [|[k v] m IH]; cbn; [easy|].
  intros [H|H].
  - injection H as -> ->. rewrite String.eqb_refl. eauto.
  - destruct (v =? sid); eauto.
Qed.

Lemma get_delete_same (m : JsMap.t) (k : string) :
  NoDup (JsMap.keys m) -> JsMap.get (JsMap.delete m k) k = None.
Proof.
  induction m as [|[k' v'] m IH]; cbn; [reflexivity|].
  intros Hnd. inversion Hnd as [|? ? Hk Hm]; subst.
  destruct (String.eqb_spec k' k) as [->|Hne].
  - destruct (JsMap.get m k) as [v|] eqn:E; [|reflexivity].
    exfalso. apply Hk. apply get_In in E. now apply (in_map fst) in E.
  - cbn. destruct (String.eqb_spec k' k); [congruence|]. now apply IH.
Qed.

Lemma get_delete_other (m : JsMap.t) (k k' : string) :
  k' <> k -> JsMap.get (JsMap.delete m k) k' = JsMap.get m k'.
Proof.
  intros Hne. induction m as [|[k0 v0] m IH]; cbn; [reflexivity|].
  destruct (String.eqb_spec k0 k) as [->|Hk]; cbn.
  - destruct (String.eqb_spec k k'); congruence.
  - destruct (String.eqb_spec k0 k'); congruence.
Qed.

(** Closing the connection an identity is bound to removes the entry of
    that identity and no other. *)
Lemma disconnect_unbinds (w : World) (u sid : string) :
  directory_ok (userSocketMap w) ->
  JsMap.get (userSocketMap w) u = Some sid ->
  let m' := userSocketMap (world (disconnect sid w)) in
  JsMap.get m' u = None
  /\ (forall v, v <> u -> JsMap.get m' v = JsMap.get (userSocketMap w) v).
Proof.
  intros (Hk & Hv & _) Hg m'. subst m'. rewrite disconnect_world.
  apply get_In in Hg.
  destruct (first_user_of_matched _ _ _ Hg) as (u' & Hu). rewrite Hu.
  apply first_user_of_In in Hu.
  assert (u' = u) by (eapply same_socket_same_user; eauto). subst u'.
  cbn. split.
  - now apply get_delete_same.
  - intros v Hne. now apply get_delete_other.
Qed.

(** * Further properties *)

(** ** Reachable worlds *)

(** X1. Starting with an empty directory, whatever connections, closes and
    submissions arrive (each connection with a new, non-empty socket id),
    the directory keeps one entry per identity and one identity per socket
    id, binds only non-empty ids of sockets that did connect, and stored
    message ids stay below the next id. *)
Theorem reachable_worlds_are_ok (inputs : list (Env * Input)) (d : Db) :
  fresh_sockets [] inputs ->
  db_ok d ->
  world_ok (seen_after [] inputs) (world (serve inputs (mkWorld JsMap.empty [] d))).
Proof.
  intros Hf Hd. apply serve_ok; [exact Hf|].
  split; [|split].
  - repeat split; constructor.
  - intros x [].
  - exact Hd.
Qed.

Lemma reachable_worlds_are_ok_witness :
  world_ok ["sock-x"; "sock-b"; "sock-a"] Sample.world1.
Proof.
  apply (reachable_worlds_are_ok
           [(Sample.env, Connect Sample.sock_a);
            (Sample.env, Connect Sample.sock_b);
            (Sample.env, Connect Sample.sock_x)] Sample.db0).
  - cbn. repeat split; try reflexivity; intros H;
      repeat (destruct H as [H|H]; [discriminate|]); exact H.
  - constructor.
Defined.

(** ** The store invariant *)

Lemma validate_schema_ok (env : Env) (message : Draft) (d : Db)
      (f : ObjectId * option ObjectId * string) :
  validate env message = Some f -> schema_ok (new_doc env message d f) = true.
Proof.
  unfold validate, schema_ok, new_doc.
  destruct (sender message) as [s|]; [|discriminate].
  destruct (castObjectId env s) as [sid|]; [|discriminate].
  destruct (match receiver message with
            | Some r => option_map Some (castObjectId env r)
            | None => Some None
            end) as [rid|]; [|discriminate].
  destruct (messageType message) as [ty|]; [|discriminate].
  destruct (messageType_enum ty
            && (if ty =? "text" then required_string (content message) else true)
            && (if ty =? "file" then required_string (fileUrl message) else true))
    eqn:E; [|discriminate].
  intros H. injection H as <-. cbn. exact E.
Qed.

Lemma refs_ok_insert (d : Db) (doc : MessageDoc) :
  refs_ok d -> refs_ok (insert_message d doc).
Proof.
  unfold refs_ok, insert_message. cbn. intros H.
  eapply Forall_impl; [|exact H]. cbn. intros c Hc.
  eapply Forall_impl; [|exact Hc]. cbn. intros; lia.
Qed.

Lemma store_ok_insert (env : Env) (message : Draft) (d : Db)
      (f : ObjectId * option ObjectId * string) :
  validate env message = Some f ->
  store_ok d -> store_ok (insert_message d (new_doc env message d f)).
Proof.
  intros Hv (Hdb & Hnd & Hs & Hr). repeat split.
  - now apply db_ok_insert.
  - unfold insert_message. cbn [messages]. rewrite map_app. cbn [map].
    change (msg_id (new_doc env message d f)) with (nextId d).
    rewrite <- (rev_involutive (map msg_id (messages d) ++ [nextId d])).
    apply NoDup_rev. rewrite rev_app_distr. cbn. constructor.
    + rewrite <- in_rev. intros Hin. apply in_map_iff in Hin as (x & Hx & Hin).
      apply (proj1 (Forall_forall _ _) Hdb) in Hin. lia.
    + now apply NoDup_rev.
  - unfold insert_message. cbn. apply Forall_app. split; [exact Hs|].
    constructor; [|constructor]. now apply validate_schema_ok.
  - now apply refs_ok_insert.
Qed.

Lemma push_message_refs (cs : list ChannelDoc) (cid : ObjectId) (mid n : nat) :
  mid < n ->
  Forall (fun c => Forall (fun id => id < n) (channel_messages c)) cs ->
  Forall (fun c => Forall (fun id => id < n) (channel_messages c))
         (push_message cs cid mid).
Proof.
  intros Hm. induction cs as [|c cs IH]; intros H; [constructor|].
  rewrite push_message_cons. inversion H as [|? ? Hc Hcs]; subst.
  destruct (channel_id c =? cid).
  - constructor; [|exact Hcs]. cbn. apply Forall_app. split; [exact Hc|].
    constructor; [exact Hm|constructor].
  - constructor; [exact Hc|]. now apply IH.
Qed.

Lemma store_ok_push (d : Db) (cid : ObjectId) (mid : nat) :
  mid < nextId d -> store_ok d ->
  store_ok (update_channels d (push_message (channels d) cid mid)).
Proof.
  intros Hm (Hdb & Hnd & Hs & Hr). repeat split; try assumption.
  unfold refs_ok, update_channels. cbn. now apply push_message_refs.
Qed.

Lemma sendMessage_store_ok (env : Env) (message : Draft) (w : World) :
  store_ok (db w) -> store_ok (db (world (sendMessage env message w))).
Proof.
  intros Hok. rewrite sendMessage_run. cbv zeta.
  destruct (validate env message) as [f|] eqn:Hv; [|exact Hok].
  destruct (available env MessageCreate); [|exact Hok].
  destruct (available env MessageFindById); cbn; now apply store_ok_insert.
Qed.

Lemma sendMessageOnChannel_store_ok (env : Env) (message : ChannelDraft)
      (w : World) :
  store_ok (db w) -> store_ok (db (world (sendMessageOnChannel env message w))).
Proof.
  intros Hok. rewrite sendMessageOnChannel_run. cbv zeta.
  destruct (validate env (body message)) as [f|] eqn:Hv; [|exact Hok].
  pose proof (store_ok_insert env (body message) (db w) f Hv Hok) as H1.
  assert (H2 : forall cid,
             store_ok (update_channels
                         (insert_message (db w) (new_doc env (body message) (db w) f))
                         (push_message
                            (channels (insert_message (db w)
                                         (new_doc env (body message) (db w) f)))
                            cid (msg_id (new_doc env (body message) (db w) f))))).
  { intros cid. apply store_ok_push; [|exact H1].
    unfold insert_message, new_doc. cbn. lia. }
  destruct (available env MessageCreate); [|exact Hok].
  destruct (available env MessageFindById); [|exact H1].
  destruct (castObjectId env (channel message)) as [cid|]; [|exact H1].
  destruct (available env ChannelFindByIdAndUpdate); [|exact H1].
  destruct (available env ChannelFindById); [|apply H2].
  destruct (option_map _ _) as [md|]; [|apply H2].
  destruct (findChannel _ cid) as [c|]; apply H2.
Qed.

Lemma handle_store_ok (env : Env) (i : Input) (w : World) :
  store_ok (db w) -> store_ok (db (world (handle env i w))).
Proof.
  intros Hok. destruct i as [s|sid e]; cbn [handle].
  - now rewrite connection_world.
  - rewrite receive_run.
    destruct (registered w sid (event_name e)); [|exact Hok].
    destruct e as [message|message|].
    + now apply sendMessage_store_ok.
    + now apply sendMessageOnChannel_store_ok.
    + rewrite disconnect_world.
      destruct (first_user_of (userSocketMap w) sid); exact Hok.
Qed.

(** X2. Whatever the server receives, the store keeps its invariant: stored
    message ids are pairwise distinct and below the next id, every stored
    message meets the conditional requirements of the schema (a known type,
    content for a text, a file URL for a file), and channels list only ids
    of messages that were created. *)
Theorem store_invariant_kept (inputs : list (Env * Input)) :
  forall w : World,
    store_ok (db w) -> store_ok (db (world (serve inputs w))).
Proof.
  induction inputs as [|[env i] rest IH]; intros w Hok; [exact Hok|].
  cbn [serve]. unfold bind. rewrite handle_returns. cbn [world].
  apply IH. now apply handle_store_ok.
Qed.

Lemma store_invariant_kept_witness :
  store_ok
    (db (world (serve [(Sample.env, Connect Sample.sock_a);
                       (Sample.env, Receive "sock-a" (EvSendMessage Sample.hi));
                       (Sample.env,
                        Receive "sock-a"
                                (EvSendMessageOnChannel
                                   (mkChannelDraft Sample.hi Sample.general)))]
                      Sample.world0))).
Proof.
  apply (store_invariant_kept
           [(Sample.env, Connect Sample.sock_a);
            (Sample.env, Receive "sock-a" (EvSendMessage Sample.hi));
            (Sample.env,
             Receive "sock-a"
                     (EvSendMessageOnChannel
                        (mkChannelDraft Sample.hi Sample.general)))]
           Sample.world0).
  repeat split; cbn; repeat constructor.
Defined.

(** ** Connections of one identity *)

(** X3. Closing the connection an identity is bound to removes that
    identity's entry and no other, leaves the store and the listeners alone,
    and leaves no entry holding the closed socket's id. *)
Theorem closed_connection_is_unbound (w : World) (u sid : string) :
  directory_ok (userSocketMap w) ->
  JsMap.get (userSocketMap w) u = Some sid ->
  let w' := world (disconnect sid w) in
  JsMap.get (userSocketMap w') u = None
  /\ (forall v, v <> u ->
                JsMap.get (userSocketMap w') v = JsMap.get (userSocketMap w) v)
  /\ ~ In sid (JsMap.values (userSocketMap w'))
  /\ db w' = db w
  /\ listeners w' = listeners w.
Proof.
  intros Hd Hg w'.
  destruct (disconnect_unbinds w u sid Hd Hg) as [H1 H2].
  split; [exact H1|]. split; [exact H2|].
  assert (Ew : w' = with_map w (JsMap.delete (userSocketMap w) u)).
  { subst w'. rewrite disconnect_world.
    pose proof (get_In _ _ _ Hg) as Hin.
    destruct (first_user_of_matched _ _ _ Hin) as (u' & Hu). rewrite Hu.
    apply first_user_of_In in Hu. destruct Hd as (_ & Hv & _).
    now rewrite (same_socket_same_user _ _ _ _ Hv Hu Hin). }
  split; [|now rewrite Ew].
  intros Hin. apply in_map_iff in Hin as ([v s] & Hs & Hin). cbn in Hs. subst s.
  destruct Hd as (Hk & Hv & _).
  assert (Hin0 : In (v, sid) (userSocketMap w)).
  { rewrite Ew in Hin. now apply (delete_incl (userSocketMap w) u). }
  assert (v = u) by (eapply same_socket_same_user; eauto using get_In). subst v.
  rewrite Ew in Hin. cbn in Hin.
  assert (Hk' : In u (JsMap.keys (JsMap.delete (userSocketMap w) u)))
    by (apply in_map_iff; exists (u, sid); auto).
  clear -Hk Hk'. induction (userSocketMap w) as [|[k x] m IH]; cbn in *; [easy|].
  inversion Hk as [|? ? Hn Hm]; subst.
  destruct (String.eqb_spec k u) as [->|Hne]; [auto|].
  cbn in Hk'. destruct Hk' as [->|Hk']; [congruence|auto].
Qed.

Lemma closed_connection_is_unbound_witness :
  let w' := world (disconnect "sock-b" Sample.world1) in
  JsMap.get (userSocketMap w') Sample.bob = None
  /\ (forall v, v <> Sample.bob ->
                JsMap.get (userSocketMap w') v
                = JsMap.get (userSocketMap Sample.world1) v)
  /\ ~ In "sock-b" (JsMap.values (userSocketMap w'))
  /\ db w' = db Sample.world1
  /\ listeners w' = listeners Sample.world1.
Proof.
  apply (closed_connection_is_unbound Sample.world1 Sample.bob "sock-b").
  - exact (proj1 sample_world1_ok).
  - reflexivity.
Defined.

Lemma not_in_values_set (m : JsMap.t) (k v x : string) :
  x <> v -> ~ In x (JsMap.values m) -> ~ In x (JsMap.values (JsMap.set m k v)).
Proof.
  intros Hne Hn Hin. apply values_set_In in Hin. tauto.
Qed.

(** X4. When an identity connects a second time while its first connection
    is still open, the close of the first connection leaves the identity
    bound to the second, and the close of the second leaves the identity
    unbound although the first connection is still open. *)
Theorem second_connection_owns_the_entry (w : World) (userId h1 h2 : string) :
  directory_ok (userSocketMap w) ->
  truthy userId = true ->
  truthy h2 = true ->
  h1 <> h2 ->
  ~ In h1 (JsMap.values (userSocketMap w)) ->
  ~ In h2 (JsMap.values (userSocketMap w)) ->
  let w2 := world (connection (mkSocket h2 (Some userId))
                     (world (connection (mkSocket h1 (Some userId)) w))) in
  JsMap.get (userSocketMap (world (disconnect h1 w2))) userId = Some h2
  /\ JsMap.get (userSocketMap (world (disconnect h2 w2))) userId = None.
Proof.
  intros Hd Hu Ht2 Hne Hn1 Hn2 w2.
  assert (Em : userSocketMap w2 = JsMap.set (userSocketMap w) userId h2).
  { subst w2. rewrite !connection_world. cbn. rewrite Hu. apply set_set. }
  assert (Hd2 : directory_ok (userSocketMap w2)).
  { rewrite Em. now apply directory_ok_set. }
  assert (Hg : JsMap.get (userSocketMap w2) userId = Some h2).
  { rewrite Em. apply get_set_same. }
  split.
  - rewrite disconnect_world, first_user_of_unmatched; [exact Hg|].
    rewrite Em. now apply not_in_values_set.
  - now apply (disconnect_unbinds w2 userId h2 Hd2 Hg).
Qed.

Lemma second_connection_owns_the_entry_witness :
  let w2 := world (connection (mkSocket "tab-2" (Some Sample.carol))
                     (world (connection (mkSocket "tab-1" (Some Sample.carol))
                               Sample.world1))) in
  JsMap.get (userSocketMap (world (disconnect "tab-1" w2))) Sample.carol
  = Some "tab-2"
  /\ JsMap.get (userSocketMap (world (disconnect "tab-2" w2))) Sample.carol
     = None.
Proof.
  apply (second_connection_owns_the_entry Sample.world1 Sample.carol
                                          "tab-1" "tab-2").
  - exact (proj1 sample_world1_ok).
  - reflexivity.
  - reflexivity.
  - discriminate.
  - vm_compute. intros [H|[H|[]]]; discriminate.
  - vm_compute. intros [H|[H|[]]]; discriminate.
Defined.

Lemma set_absent (m : JsMap.t) (k v : string) :
  JsMap.get m k = None -> JsMap.set m k v = m ++ [(k, v)].
Proof.
  induction m as [|[k' v'] m IH]; cbn; [reflexivity|].
  destruct (k' =? k); [discriminate|]. intros H. now rewrite IH.
Qed.

Lemma first_user_of_last (m : JsMap.t) (k v : string) :
  ~ In v (JsMap.values m) -> first_user_of (m ++ [(k, v)]) v = Some k.
Proof.
  induction m as [|[k' v'] m IH]; cbn; intros Hn.
  - now rewrite String.eqb_refl.
  - destruct (String.eqb_spec v' v) as [->|Hne]; [exfalso; auto|].
    apply IH. auto.
Qed.

Lemma delete_last (m : JsMap.t) (k v : string) :
  JsMap.get m k = None -> JsMap.delete (m ++ [(k, v)]) k = m.
Proof.
  induction m as [|[k' v'] m IH]; cbn.
  - now rewrite String.eqb_refl.
  - destruct (k' =? k); [discriminate|]. intros H. now rewrite IH.
Qed.

(** X5. Connecting an identity that has no entry on a new socket and then
    closing that socket gives back the directory as it was, entry for
    entry and in the same order. *)
Theorem connect_then_close_restores_directory (w : World) (userId sid : string) :
  truthy userId = true ->
  JsMap.get (userSocketMap w) userId = None ->
  ~ In sid (JsMap.values (userSocketMap w)) ->
  userSocketMap
    (world (disconnect sid (world (connection (mkSocket sid (Some userId)) w))))
  = userSocketMap w.
Proof.
  intros Hu Hg Hn. rewrite disconnect_world, connection_world. cbn.
  rewrite Hu, (set_absent _ _ _ Hg), (first_user_of_last _ _ _ Hn). cbn.
  now apply delete_last.
Qed.

Lemma connect_then_close_restores_directory_witness :
  userSocketMap
    (world (disconnect "sock-c"
              (world (connection (mkSocket "sock-c" (Some Sample.carol))
                        Sample.world1))))
  = userSocketMap Sample.world1.
Proof.
  apply (connect_then_close_restores_directory Sample.world1 Sample.carol
                                               "sock-c").
  - reflexivity.
  - reflexivity.
  - vm_compute. intros [H|[H|[]]]; discriminate.
Defined.

(** ** The history endpoint *)

Lemma getMessages_run (env : Env) (req : Request) (w : World) :
  getMessages env req w =
  match req_userID req, req_body_id req with
  | Some user1, Some user2 =>
    if truthy user1 && truthy user2 then
      match castObjectId env user1, castObjectId env user2 with
      | Some u1, Some u2 =>
        if available env MessageFind then
          mkRun (Return (mkResponse 200
                           (BodyMessages
                              (sort_by_timeStamp
                                 (filter (between u1 u2) (messages (db w)))))))
                w [DbCall MessageFind]
        else
          mkRun (Return (mkResponse 500 (BodyMsg "Internal Server Error")))
                w [DbCall MessageFind;
                   ConsoleLog (LogError (StorageError MessageFind))]
      | _, _ =>
        mkRun (Return (mkResponse 500 (BodyMsg "Internal Server Error")))
              w [DbCall MessageFind; ConsoleLog (LogError CastError)]
      end
    else mkRun (Return (mkResponse 404 (BodyMsg "Both the Users are Required")))
               w []
  | _, _ => mkRun (Return (mkResponse 404 (BodyMsg "Both the Users are Required")))
                  w []
  end.
Proof.
  unfold getMessages, try_catch, Message_find, bind.
  destruct (req_userID req) as [user1|]; [|reflexivity].
  destruct (req_body_id req) as [user2|]; [|reflexivity].
  destruct (truthy user1 && truthy user2); [|reflexivity]. cbn.
  destruct (castObjectId env user1) as [u1|];
    [destruct (castObjectId env user2) as [u2|]|]; cbn; try reflexivity.
  destruct (available env MessageFind); reflexivity.
Qed.

(** X6. The history endpoint refuses with 404, without consulting the
    store, a request in which either user id is missing or empty; and it
    answers 500, after one console line, when both ids are present but one
    of them does not cast to an id or the store does not serve the query.
    In both cases nothing is changed. *)
Theorem getMessages_refusals (env : Env) (w : World) :
  (forall req : Request,
      truthy_opt (req_userID req) && truthy_opt (req_body_id req) = false ->
      getMessages env req w
      = mkRun (Return (mkResponse 404 (BodyMsg "Both the Users are Required")))
              w [])
  /\ (forall user1 user2 : string,
         truthy user1 = true -> truthy user2 = true ->
         castObjectId env user1 = None \/ castObjectId env user2 = None
         \/ available env MessageFind = false ->
         exists e,
           getMessages env (mkRequest (Some user1) (Some user2)) w
           = mkRun (Return (mkResponse 500 (BodyMsg "Internal Server Error")))
                   w [DbCall MessageFind; ConsoleLog (LogError e)]).
Proof.
  split.
  - intros req H. rewrite getMessages_run.
    destruct (req_userID req) as [user1|]; [|reflexivity].
    destruct (req_body_id req) as [user2|]; [|reflexivity].
    cbn in H. now rewrite H.
  - intros user1 user2 H1 H2 H. rewrite getMessages_run. cbn. rewrite H1, H2. cbn.
    destruct (castObjectId env user1) as [u1|];
      [destruct (castObjectId env user2) as [u2|]|]; eauto.
    destruct (available env MessageFind); eauto.
    destruct H as [H|[H|H]]; discriminate.
Qed.

Lemma getMessages_refusals_witness :
  (getMessages Sample.env (mkRequest (Some Sample.alice) (Some "")) Sample.world1
   = mkRun (Return (mkResponse 404 (BodyMsg "Both the Users are Required")))
           Sample.world1 [])
  /\ exists e,
      getMessages Sample.env (mkRequest (Some Sample.alice) (Some "bob"))
                  Sample.world1
      = mkRun (Return (mkResponse 500 (BodyMsg "Internal Server Error")))
              Sample.world1 [DbCall MessageFind; ConsoleLog (LogError e)].
Proof.
  split.
  - apply (proj1 (getMessages_refusals Sample.env Sample.world1)
                 (mkRequest (Some Sample.alice) (Some ""))).
    reflexivity.
  - apply (proj2 (getMessages_refusals Sample.env Sample.world1)
                 Sample.alice "bob").
    + reflexivity.
    + reflexivity.
    + right. left. reflexivity.
Defined.

Lemma insert_by_timeStamp_perm (m : MessageDoc) (l : list MessageDoc) :
  Permutation (insert_by_timeStamp m l) (m :: l).
Proof.
  induction l as [|x l IH]; cbn [insert_by_timeStamp]; [reflexivity|].
  destruct (msg_timeStamp m <? msg_timeStamp x)%nat; [reflexivity|].
  rewrite IH. apply perm_swap.
Qed.

Lemma sort_by_timeStamp_perm (l : list MessageDoc) :
  Permutation (sort_by_timeStamp l) l.
Proof.
  unfold sort_by_timeStamp. rewrite (Permutation_rev l) at 2.
  induction (rev l) as [|x l' IH]; cbn [fold_right]; [reflexivity|].
  rewrite insert_by_timeStamp_perm. now constructor.
Qed.

Lemma insert_by_timeStamp_sorted (m : MessageDoc) (l : list MessageDoc) :
  StronglySorted older l -> StronglySorted older (insert_by_timeStamp m l).
Proof.
  induction l as [|x l IH]; cbn [insert_by_timeStamp]; intros Hs.
  - constructor; constructor.
  - inversion Hs as [|? ? Hl Hx]; subst.
    destruct (Nat.ltb_spec (msg_timeStamp m) (msg_timeStamp x)).
    + constructor; [exact Hs|]. constructor; [unfold older; lia|].
      eapply Forall_impl; [|exact Hx]. unfold older. intros; lia.
    + constructor; [now apply IH|].
      apply Forall_forall. intros y Hy.
      apply In_insert_by_timeStamp in Hy as [<-|Hy]; [unfold older; lia|].
      now apply (proj1 (Forall_forall _ _) Hx).
Qed.

Lemma sort_by_timeStamp_sorted (l : list MessageDoc) :
  StronglySorted older (sort_by_timeStamp l).
Proof.
  unfold sort_by_timeStamp. induction (rev l) as [|x l' IH]; cbn [fold_right].
  - constructor.
  - now apply insert_by_timeStamp_sorted.
Qed.

Lemma between_spec (a b : ObjectId) (m : MessageDoc) :
  between a b m = true <->
  (msg_sender m = a /\ msg_receiver m = Some b)
  \/ (msg_sender m = b /\ msg_receiver m = Some a).
Proof.
  unfold between, opt_eqb. rewrite orb_true_iff, !andb_true_iff.
  destruct (msg_receiver m) as [r|]; rewrite ?String.eqb_eq.
  - split; intros [[H1 H2]|[H1 H2]]; [left|right|left|right]; split; auto;
      congruence.
  - split; intros [[H1 H2]|[H1 H2]]; discriminate.
Qed.

(** X7. For two non-empty user ids that cast and a store that serves the
    query, the history endpoint answers 200 with exactly the stored
    messages sent by one of the two users to the other, each as often as it
    is stored, oldest first; channel messages without receiver are never
    among them, and nothing is changed. *)
Theorem getMessages_lists_the_conversation
        (env : Env) (w : World) (user1 user2 : string) (a b : ObjectId) :
  truthy user1 = true ->
  truthy user2 = true ->
  castObjectId env user1 = Some a ->
  castObjectId env user2 = Some b ->
  available env MessageFind = true ->
  exists l,
    getMessages env (mkRequest (Some user1) (Some user2)) w
    = mkRun (Return (mkResponse 200 (BodyMessages l))) w [DbCall MessageFind]
    /\ Permutation l (filter (between a b) (messages (db w)))
    /\ StronglySorted older l
    /\ (forall m, In m l <->
                  In m (messages (db w))
                  /\ ((msg_sender m = a /\ msg_receiver m = Some b)
                      \/ (msg_sender m = b /\ msg_receiver m = Some a)))
    /\ (forall m, In m l -> msg_receiver m <> None).
Proof.
  intros H1 H2 Ha Hb Hf. eexists. split; [|split; [|split; [|split]]].
  - rewrite getMessages_run. cbn. rewrite H1, H2, Ha, Hb, Hf. reflexivity.
  - apply sort_by_timeStamp_perm.
  - apply sort_by_timeStamp_sorted.
  - intros m. rewrite In_sort_by_timeStamp, filter_In, between_spec. tauto.
  - intros m Hm. apply In_sort_by_timeStamp, filter_In in Hm as [_ Hm].
    apply between_spec in Hm as [[_ ->]|[_ ->]]; discriminate.
Qed.

Lemma getMessages_lists_the_conversation_witness :
  exists l,
    getMessages Sample.env (mkRequest (Some Sample.alice) (Some Sample.bob))
                Sample.world1
    = mkRun (Return (mkResponse 200 (BodyMessages l))) Sample.world1
            [DbCall MessageFind]
    /\ Permutation l (filter (between Sample.alice Sample.bob)
                             (messages (db Sample.world1)))
    /\ StronglySorted older l
    /\ (forall m, In m l <->
                  In m (messages (db Sample.world1))
                  /\ ((msg_sender m = Sample.alice
                       /\ msg_receiver m = Some Sample.bob)
                      \/ (msg_sender m = Sample.bob
                          /\ msg_receiver m = Some Sample.alice)))
    /\ (forall m, In m l -> msg_receiver m <> None).
Proof.
  apply (getMessages_lists_the_conversation
           Sample.env Sample.world1 Sample.alice Sample.bob
           Sample.alice Sample.bob); reflexivity.
Defined.

Lemma between_comm (a b : ObjectId) (m : MessageDoc) :
  between a b m = between b a m.
Proof. unfold between. apply orb_comm. Qed.

(** X8. The history of a conversation does not depend on which of the two
    users asks: swapping the requester and the other user gives the same
    answer, the same trace and the same world. *)
Theorem getMessages_symmetric (env : Env) (w : World) (x y : option string) :
  getMessages env (mkRequest x y) w = getMessages env (mkRequest y x) w.
Proof.
  rewrite !getMessages_run. cbn [req_userID req_body_id].
  destruct x as [x|], y as [y|]; try reflexivity.
  rewrite (andb_comm (truthy y)).
  destruct (truthy x && truthy y); [|reflexivity].
  destruct (castObjectId env x) as [a|], (castObjectId env y) as [b|];
    try reflexivity.
  now rewrite (filter_ext _ _ (between_comm a b)).
Qed.

(** ** The channel history endpoint *)

Arguments populate_messages : simpl never.

Lemma getChannelMessages_run (env : Env) (channelId : option string) (w : World) :
  getChannelMessages env channelId w =
  let refused := mkRun (Return (mkReply 400 (Some "NO ChannelId was provided") None))
                       w [] in
  let failed e := mkRun (Return (mkReply 500 (Some "INTERNAL SERVER ERROR") None))
                        w [DbCall ChannelFindById; ConsoleLog (LogError e)] in
  match channelId with
  | Some id =>
    if truthy id then
      match castObjectId env id with
      | Some cid =>
        if available env ChannelFindById then
          match findChannel (db w) cid with
          | Some c =>
            mkRun (Return (mkReply 200 None
                             (Some (populate_messages (db w) (channel_messages c)))))
                  w [DbCall ChannelFindById]
          | None => failed TypeError
          end
        else failed (StorageError ChannelFindById)
      | None => failed CastError
      end
    else refused
  | None => refused
  end.
Proof.
  unfold getChannelMessages, try_catch, Channel_findById_messages, bind.
  destruct channelId as [id|]; [|reflexivity].
  destruct (truthy id); [|reflexivity]. cbn.
  destruct (castObjectId env id) as [cid|]; [|reflexivity]. cbn.
  destruct (available env ChannelFindById); [|reflexivity]. cbn.
  destruct (findChannel (db w) cid) as [c|]; reflexivity.
Qed.

(** X9. The channel history endpoint refuses a missing or empty channel id
    with 400 without consulting the store; for an id that casts but names
    no channel it answers 500, the console line being the [TypeError] of
    reading [messages] of [null]; it answers 500 as well for an id that
    does not cast and for a store that does not serve.  Nothing is ever
    changed by it. *)
Theorem getChannelMessages_refusals (env : Env) (w : World) :
  (forall channelId : option string,
      truthy_opt channelId = false ->
      getChannelMessages env channelId w
      = mkRun (Return (mkReply 400 (Some "NO ChannelId was provided") None)) w [])
  /\ (forall id cid : string,
         truthy id = true ->
         castObjectId env id = Some cid ->
         available env ChannelFindById = true ->
         findChannel (db w) cid = None ->
         getChannelMessages env (Some id) w
         = mkRun (Return (mkReply 500 (Some "INTERNAL SERVER ERROR") None))
                 w [DbCall ChannelFindById; ConsoleLog (LogError TypeError)])
  /\ (forall id : string,
         truthy id = true ->
         castObjectId env id = None \/ available env ChannelFindById = false ->
         exists e,
           getChannelMessages env (Some id) w
           = mkRun (Return (mkReply 500 (Some "INTERNAL SERVER ERROR") None))
                   w [DbCall ChannelFindById; ConsoleLog (LogError e)])
  /\ (forall channelId : option string,
         world (getChannelMessages env channelId w) = w).
Proof.
  split; [|split; [|split]].
  - intros [id|] H; rewrite getChannelMessages_run; [|reflexivity].
    cbn in H. now rewrite H.
  - intros id cid Ht Hc Ha Hf. rewrite getChannelMessages_run. cbv zeta.
    now rewrite Ht, Hc, Ha, Hf.
  - intros id Ht H. rewrite getChannelMessages_run. cbv zeta. rewrite Ht.
    destruct (castObjectId env id) as [cid|]; [|eauto].
    destruct (available env ChannelFindById); [|eauto].
    destruct H; discriminate.
  - intros channelId. rewrite getChannelMessages_run. cbv zeta.
    destruct channelId as [id|]; [|reflexivity].
    destruct (truthy id); [|reflexivity].
    destruct (castObjectId env id) as [cid|]; [|reflexivity].
    destruct (available env ChannelFindById); [|reflexivity].
    destruct (findChannel (db w) cid); reflexivity.
Qed.

Lemma getChannelMessages_refusals_witness :
  getChannelMessages Sample.env (Some Sample.nowhere) Sample.world1
  = mkRun (Return (mkReply 500 (Some "INTERNAL SERVER ERROR") None))
          Sample.world1
          [DbCall ChannelFindById; ConsoleLog (LogError TypeError)].
Proof.
  apply (proj1 (proj2 (getChannelMessages_refusals Sample.env Sample.world1))
               Sample.nowhere Sample.nowhere); reflexivity.
Defined.

Lemma findMessage_insert_old (d : Db) (doc : MessageDoc) (id : nat) :
  msg_id doc = nextId d -> id < nextId d ->
  findMessage (insert_message d doc) id = findMessage d id.
Proof.
  intros Hid Hlt. unfold findMessage, insert_message. cbn [messages].
  induction (messages d) as [|m ms IH]; cbn.
  - destruct (Nat.eqb_spec (msg_id doc) id); [lia|reflexivity].
  - destruct (msg_id m =? id)%nat; [reflexivity|exact IH].
Qed.

Lemma populate_messages_insert (d : Db) (doc : MessageDoc) (ids : list nat) :
  msg_id doc = nextId d ->
  Forall (fun id => id < nextId d) ids ->
  populate_messages (insert_message d doc) ids = populate_messages d ids.
Proof.
  intros Hid H. unfold populate_messages.
  induction H as [|id ids Hlt _ IH]; [reflexivity|].
  cbn [flat_map]. rewrite IH, (findMessage_insert_old d doc id Hid Hlt).
  reflexivity.
Qed.

Lemma populate_messages_same (d d' : Db) (ids : list nat) :
  messages d' = messages d -> users d' = users d ->
  populate_messages d' ids = populate_messages d ids.
Proof.
  intros Em Eu. unfold populate_messages, findMessage, view_message, findUser.
  now rewrite Em, Eu.
Qed.

Lemma populate_messages_app (d : Db) (l1 l2 : list nat) :
  populate_messages d (l1 ++ l2) = populate_messages d l1 ++ populate_messages d l2.
Proof. unfold populate_messages. apply flat_map_app. Qed.

Lemma refs_ok_channel (d : Db) (cid : ObjectId) (c : ChannelDoc) :
  refs_ok d -> findChannel d cid = Some c ->
  Forall (fun id => id < nextId d) (channel_messages c).
Proof.
  intros Hr Hc. apply findChannel_Some in Hc as [Hin _].
  now apply (proj1 (Forall_forall _ _) Hr).
Qed.

(** X10. After a channel delivery whose record is created and re-read and
    whose append is served, the history of that channel is the history it
    had before followed by the new message, shown with its stored fields
    and its sender's profile. *)
Theorem channel_history_grows_by_the_delivered_message
        (env env' : Env) (w : World) (message : ChannelDraft)
        (f : ObjectId * option ObjectId * string) (cid : ObjectId)
        (c : ChannelDoc) :
  store_ok (db w) ->
  validate env (body message) = Some f ->
  available env MessageCreate = true ->
  available env MessageFindById = true ->
  castObjectId env (channel message) = Some cid ->
  findChannel (db w) cid = Some c ->
  available env ChannelFindByIdAndUpdate = true ->
  truthy (channel message) = true ->
  castObjectId env' = castObjectId env ->
  available env' ChannelFindById = true ->
  let w' := world (sendMessageOnChannel env message w) in
  let doc := new_doc env (body message) (db w) f in
  outcome (getChannelMessages env' (Some (channel message)) w)
  = Return (mkReply 200 None
                    (Some (populate_messages (db w) (channel_messages c))))
  /\ outcome (getChannelMessages env' (Some (channel message)) w')
     = Return (mkReply 200 None
                       (Some (populate_messages (db w) (channel_messages c)
                                ++ [view_message (db w) doc]))).
Proof.
  intros (Hdb & _ & _ & Hr) Hv Hc Hf Hcast Hch Hu Ht Hcast' Ha' w' doc.
  split.
  - rewrite getChannelMessages_run. cbv zeta.
    now rewrite Ht, Hcast', Hcast, Ha', Hch.
  - subst w'. rewrite getChannelMessages_run. cbv zeta.
    rewrite Ht, Hcast', Hcast, Ha'.
    rewrite (sendMessageOnChannel_world env message w f cid Hv Hc Hf Hcast Hu).
    cbv zeta. fold doc. cbn [db with_db].
    rewrite findChannel_push.
    change (findChannel (insert_message (db w) doc) cid)
      with (findChannel (db w) cid).
    rewrite Hch. cbn [option_map outcome].
    change (channel_messages (append_message c (msg_id doc)))
      with (channel_messages c ++ [msg_id doc]).
    rewrite populate_messages_app.
    rewrite !(populate_messages_same (insert_message (db w) doc))
      by reflexivity.
    rewrite populate_messages_insert
      by (try reflexivity; now apply (refs_ok_channel (db w) cid c)).
    unfold populate_messages at 2. cbn [flat_map].
    match goal with
    | |- context [findMessage ?d (msg_id doc)] =>
      change (findMessage d (msg_id doc))
        with (findMessage (insert_message (db w) doc) (nextId (db w)))
    end.
    rewrite findMessage_fresh by (auto; reflexivity).
    rewrite app_nil_r. reflexivity.
Qed.

Lemma sample_store_ok : store_ok (db Sample.world1).
Proof.
  change (db Sample.world1) with Sample.db0.
  repeat split; cbn; repeat constructor.
Qed.

Lemma channel_history_grows_by_the_delivered_message_witness :
  let message := mkChannelDraft Sample.hi Sample.general in
  let c := mkChannelDoc Sample.general "general" [Sample.bob; Sample.carol]
                        [Sample.alice] [] in
  let w' := world (sendMessageOnChannel Sample.env message Sample.world1) in
  let doc := new_doc Sample.env Sample.hi (db Sample.world1)
                     (Sample.alice, Some Sample.bob, "text") in
  outcome (getChannelMessages Sample.env (Some Sample.general) Sample.world1)
  = Return (mkReply 200 None
                    (Some (populate_messages (db Sample.world1)
                                             (channel_messages c))))
  /\ outcome (getChannelMessages Sample.env (Some Sample.general) w')
     = Return (mkReply 200 None
                       (Some (populate_messages (db Sample.world1)
                                                (channel_messages c)
                                ++ [view_message (db Sample.world1) doc]))).
Proof.
  apply (channel_history_grows_by_the_delivered_message
           Sample.env Sample.env Sample.world1
           (mkChannelDraft Sample.hi Sample.general)
           (Sample.alice, Some Sample.bob, "text") Sample.general
           (mkChannelDoc Sample.general "general" [Sample.bob; Sample.carol]
                         [Sample.alice] []));
    try reflexivity.
  exact sample_store_ok.
Defined.

(** X11. A direct delivery changes no channel history: whatever channel id
    is asked for, the channel history endpoint answers after the delivery
    as it did before it. *)
Theorem direct_delivery_leaves_channel_histories
        (env env' : Env) (w : World) (message : Draft)
        (channelId : option string) :
  store_ok (db w) ->
  let w' := world (sendMessage env message w) in
  outcome (getChannelMessages env' channelId w')
  = outcome (getChannelMessages env' channelId w)
  /\ trace (getChannelMessages env' channelId w')
     = trace (getChannelMessages env' channelId w).
Proof.
  intros (Hdb & _ & _ & Hr) w'.
  assert (Hw : w' = w
               \/ exists doc, msg_id doc = nextId (db w)
                              /\ w' = with_db w (insert_message (db w) doc)).
  { subst w'. rewrite sendMessage_run. cbv zeta.
    direct_cases env message; cbn [world]; auto; right; eexists;
      (split; [|reflexivity]); reflexivity. }
  destruct Hw as [->|(doc & Hid & ->)]; [auto|].
  rewrite !getChannelMessages_run. cbv zeta. cbn [db with_db].
  destruct channelId as [id|]; [|auto].
  destruct (truthy id); [|auto].
  destruct (castObjectId env' id) as [cid|]; [|auto].
  destruct (available env' ChannelFindById); [|auto].
  change (findChannel (insert_message (db w) doc) cid)
    with (findChannel (db w) cid).
  destruct (findChannel (db w) cid) as [c|] eqn:Hc; [|auto].
  cbn [outcome trace].
  rewrite (populate_messages_insert (db w) doc _ Hid
             (refs_ok_channel (db w) cid c Hr Hc)).
  auto.
Qed.

Lemma direct_delivery_leaves_channel_histories_witness :
  let w' := world (sendMessage Sample.env Sample.hi Sample.world1) in
  outcome (getChannelMessages Sample.env (Some Sample.general) w')
  = outcome (getChannelMessages Sample.env (Some Sample.general) Sample.world1)
  /\ trace (getChannelMessages Sample.env (Some Sample.general) w')
     = trace (getChannelMessages Sample.env (Some Sample.general) Sample.world1).
Proof.
  apply (direct_delivery_leaves_channel_histories
           Sample.env Sample.env Sample.world1 Sample.hi (Some Sample.general)).
  exact sample_store_ok.
Defined.

(** ** Who gets a push *)


Lemma push_if_live_resolve (m : JsMap.t) (k : option string) (event : string)
      (data : Payload) :
  directory_ok m ->
  push_if_live (match k with Some k => JsMap.get m k | None => None end)
               event data
  = map (fun s => Emit s event data) (resolve m (opt_list k)).
Proof.
  intros Hd. destruct k as [k|]; [|reflexivity]. cbn.
  destruct (JsMap.get m k) as [s|] eqn:E; [|reflexivity]. cbn.
  now rewrite (bound_socket_truthy m k s Hd E).
Qed.

Lemma In_resolve (m : JsMap.t) (ids : list string) (s : string) :
  In s (resolve m ids) -> In s (JsMap.values m).
Proof.
  unfold resolve. intros Hin. apply in_flat_map in Hin as (k & _ & Hin).
  destruct (JsMap.get m k) as [s'|] eqn:E; [|easy].
  destruct Hin as [<-|[]]. apply get_In in E.
  unfold JsMap.values. apply in_map_iff. now exists (k, s').
Qed.

Lemma pushes_to_other (s event : string) (data : Payload) (l : list string) :
  ~ In s l -> pushes_to s (map (fun x => Emit x event data) l) = [].
Proof.
  induction l as [|x l IH]; intros Hs; [reflexivity|]. cbn.
  destruct (String.eqb_spec x s) as [->|_]; [exfalso; apply Hs; now left|].
  apply IH. intros H. apply Hs. now right.
Qed.

(** X12. The pushes of a direct message whose record is created and
    re-read follow the directory as it is when the handler starts, where
    the two socket ids are read, whatever the other handlers do while the
    handler awaits: one push to the socket id then held by the receiver, if
    any, followed by one to that of the sender, if any, and no other.  So a
    socket id that the directory does not hold at the start gets no push
    even if the receiver is bound to it before the pushes are made, and a
    message whose sender and receiver are one identity bound at the start
    is pushed twice to its socket id. *)
Theorem direct_pushes_use_the_ids_read_first
        (env : Env) (w : World) (message : Draft)
        (f : ObjectId * option ObjectId * string)
        (before_create before_findById before_push : World -> World) :
  directory_ok (userSocketMap w) ->
  db_ok (db w) ->
  keeps_store before_create ->
  keeps_store before_findById ->
  keeps_store before_push ->
  validate env message = Some f ->
  available env MessageCreate = true ->
  available env MessageFindById = true ->
  let r := sendMessage_interleaved env message before_create before_findById
                                   before_push w in
  let m := userSocketMap w in
  exists doc md,
    In doc (messages (db (world r)))
    /\ data_id md = msg_id doc
    /\ pushes (trace r)
       = map (fun s => Emit s "recieveMessage" (PMessage (Some md)))
             (resolve m (opt_list (receiver message)
                           ++ opt_list (sender message)))
    /\ (forall s, ~ In s (JsMap.values m) -> pushes_to s (trace r) = [])
    /\ (forall A s,
           sender message = Some A -> receiver message = Some A ->
           JsMap.get m A = Some s ->
           pushes_to s (trace r)
           = [Emit s "recieveMessage" (PMessage (Some md));
              Emit s "recieveMessage" (PMessage (Some md))]).
Proof.
  intros Hd Hok H1 H2 H3 Hv Hc Hf r m.
  destruct (sendMessage_interleaved_persisted
              env message before_create before_findById before_push w f
              Hok H1 H2 H3 Hv Hc Hf)
    as (doc & md & earlier & later & w' & Hr & Hm & Hid & _).
  subst r. rewrite Hr. cbn [world trace]. fold m.
  rewrite !(push_if_live_resolve m _ _ _ Hd).
  exists doc, md.
  split; [rewrite Hm; apply in_or_app; right; apply in_or_app; right; now left|].
  split; [exact Hid|].
  assert (Hp : forall t,
             pushes ([MapGet (sender message); MapGet (receiver message);
                      DbCall MessageCreate; DbCall MessageFindById] ++ t)
             = pushes t) by reflexivity.
  assert (Hall : pushes
                   (map (fun s => Emit s "recieveMessage" (PMessage (Some md)))
                        (resolve m (opt_list (receiver message)))
                    ++ map (fun s => Emit s "recieveMessage" (PMessage (Some md)))
                           (resolve m (opt_list (sender message))))
                 = map (fun s => Emit s "recieveMessage" (PMessage (Some md)))
                       (resolve m (opt_list (receiver message)
                                     ++ opt_list (sender message)))).
  { rewrite resolve_app, map_app. unfold pushes. rewrite filter_app.
    f_equal; apply forallb_filter_id; apply forallb_forall;
      intros a Ha; apply in_map_iff in Ha as (s & <- & _); reflexivity. }
  split; [|split].
  - now rewrite Hp.
  - intros s Hs. rewrite pushes_to_pushes, Hp, Hall.
    apply pushes_to_other. intros Hin. apply Hs.
    exact (In_resolve m _ s Hin).
  - intros A s HA HB Hg. rewrite pushes_to_pushes, Hp.
    rewrite HA, HB. cbn [opt_list resolve flat_map app]. rewrite Hg.
    cbn. now rewrite String.eqb_refl.
Qed.

Lemma sample_world_a_ok : directory_ok (userSocketMap Sample.world_a).
Proof.
  cbn. repeat split; repeat constructor; cbn; tauto.
Qed.

Lemma direct_pushes_use_the_ids_read_first_witness :
  let r := sendMessage_interleaved Sample.env Sample.hi Sample.bob_connects
                                   Sample.nothing Sample.nothing
                                   Sample.world_a in
  let m := userSocketMap Sample.world_a in
  exists doc md,
    In doc (messages (db (world r)))
    /\ data_id md = msg_id doc
    /\ pushes (trace r)
       = map (fun s => Emit s "recieveMessage" (PMessage (Some md)))
             (resolve m (opt_list (receiver Sample.hi)
                           ++ opt_list (sender Sample.hi)))
    /\ (forall s, ~ In s (JsMap.values m) -> pushes_to s (trace r) = [])
    /\ (forall A s,
           sender Sample.hi = Some A -> receiver Sample.hi = Some A ->
           JsMap.get m A = Some s ->
           pushes_to s (trace r)
           = [Emit s "recieveMessage" (PMessage (Some md));
              Emit s "recieveMessage" (PMessage (Some md))]).
Proof.
  apply (direct_pushes_use_the_ids_read_first
           Sample.env Sample.world_a Sample.hi
           (Sample.alice, Some Sample.bob, "text")
           Sample.bob_connects Sample.nothing Sample.nothing).
  - exact sample_world_a_ok.
  - constructor.
  - apply handled_keeps_store.
  - apply handled_keeps_store.
  - apply handled_keeps_store.
  - reflexivity.
  - reflexivity.
  - reflexivity.
Defined.

Lemma In_fanout (m : JsMap.t) (data data' : Payload) (us : list User)
      (room event : string) :
  In (Emit room event data') (fanout m data us) ->
  exists u, In u us /\ JsMap.get m (user_id u) = Some room
            /\ truthy room = true.
Proof.
  unfold fanout. intros Hin. apply in_flat_map in Hin as (u & Hu & [H|H]);
    [discriminate|].
  exists u. split; [exact Hu|].
  unfold push_if_live in H. destruct (JsMap.get m (user_id u)) as [s|]; [|easy].
  destruct (truthy s) eqn:Et; [|easy].
  destruct H as [H|[]]. injection H as -> _ _. auto.
Qed.

Lemma In_populate_users (d : Db) (ids : list ObjectId) (u : User) :
  In u (populate_users d ids) ->
  In (user_id u) ids /\ findUser d (user_id u) = Some u.
Proof.
  unfold populate_users. intros Hin. apply in_flat_map in Hin as (id & Hid & H).
  destruct (findUser d id) as [u'|] eqn:E; [|easy].
  destruct H as [<-|[]]. rewrite (findUser_Some d id u' E). auto.
Qed.

Lemma isMember_In (c : ChannelDoc) (id : ObjectId) :
  In id (channel_members c) \/ In id (channel_admin c) -> isMember c id = true.
Proof.
  unfold isMember. intros [H|H]; apply orb_true_iff; [left|right];
    apply existsb_exists; exists id; split; auto; apply String.eqb_refl.
Qed.

(** X13. Channel delivery never pushes to an outsider: every push of a run
    of [sendMessageOnChannel], whatever the message and the state, goes to
    the non-empty socket id that the directory binds to an existing user
    who is a member or an admin of the existing channel the message
    names. *)
Theorem channel_pushes_only_to_members
        (env : Env) (w : World) (message : ChannelDraft)
        (room event : string) (data : Payload) :
  In (Emit room event data) (trace (sendMessageOnChannel env message w)) ->
  exists cid c id,
    castObjectId env (channel message) = Some cid
    /\ findChannel (db w) cid = Some c
    /\ isMember c id = true
    /\ findUser (db w) id <> None
    /\ JsMap.get (userSocketMap w) id = Some room
    /\ truthy room = true.
Proof.
  rewrite sendMessageOnChannel_run. cbv zeta.
  destruct (validate env (body message)) as [f|];
    [|cbn; intuition discriminate].
  destruct (available env MessageCreate); [|cbn; intuition discriminate].
  destruct (available env MessageFindById); [|cbn; intuition discriminate].
  destruct (castObjectId env (channel message)) as [cid|];
    [|cbn; intuition discriminate].
  destruct (available env ChannelFindByIdAndUpdate);
    [|cbn; intuition discriminate].
  destruct (available env ChannelFindById); [|cbn; intuition discriminate].
  destruct (option_map _ _) as [md|]; [|cbn; intuition discriminate].
  cbn [db with_db]. rewrite findChannel_push.
  change (findChannel (insert_message (db w)
                         (new_doc env (body message) (db w) f)) cid)
    with (findChannel (db w) cid).
  destruct (findChannel (db w) cid) as [c|] eqn:Hc;
    [|cbn; intuition discriminate].
  cbn [option_map trace]. intros Hin.
  repeat (destruct Hin as [Hin|Hin]; [discriminate|]).
  cbn [app] in Hin.
  rewrite !(populate_users_same_users (db w)) in Hin by reflexivity.
  change (channel_members (append_message c _)) with (channel_members c) in Hin.
  change (channel_admin (append_message c _)) with (channel_admin c) in Hin.
  assert (H : exists u,
             (In (user_id u) (channel_members c)
              \/ In (user_id u) (channel_admin c))
             /\ findUser (db w) (user_id u) = Some u
             /\ JsMap.get (userSocketMap w) (user_id u) = Some room
             /\ truthy room = true).
  { apply in_app_or in Hin as [Hin|Hin];
      apply In_fanout in Hin as (u & Hu & Hg & Ht);
      apply In_populate_users in Hu as [Hu Hf];
      exists u; repeat split; auto. }
  destruct H as (u & Hm & Hf & Hg & Ht).
  exists cid, c, (user_id u). repeat split; auto.
  - now apply isMember_In.
  - congruence.
Qed.

Lemma channel_pushes_only_to_members_witness :
  exists cid c id,
    castObjectId Sample.env Sample.general = Some cid
    /\ findChannel (db Sample.world1) cid = Some c
    /\ isMember c id = true
    /\ findUser (db Sample.world1) id <> None
    /\ JsMap.get (userSocketMap Sample.world1) id = Some "sock-b"
    /\ truthy "sock-b" = true.
Proof.
  eapply (channel_pushes_only_to_members
            Sample.env Sample.world1 (mkChannelDraft Sample.hi Sample.general)
            "sock-b" "recieveChannelMessage").
  vm_compute. right. right. right. right. right. left. reflexivity.
Defined.

(** ** Creating a channel *)

Lemma CreateChannel_run (renv : RestEnv) (req : CreateChannelRequest) (d : Db) :
  CreateChannel renv req d =
  let failed e := mkHandled (mkReply 500 (Some "INTERNAL SERVER ERROR") None)
                            d [e] in
  match rest_cast renv (cc_userID req) with
  | None => failed RestCastError
  | Some user =>
    if served renv UserFindById then
      match findUser d user with
      | None => mkHandled (mkReply 400 (Some "Admin User Not Found") None) d []
      | Some admin =>
        match cast_all renv (cc_members req) with
        | None => failed RestCastError
        | Some ids =>
          if served renv UserFind then
            if (List.length (filter (fun u => existsb (String.eqb (user_id u)) ids)
                                    (users d))
                =? List.length (cc_members req))%nat
            then
              if truthy (cc_name req) then
                if served renv ChannelCreate then
                  let c := mkChannelDoc (newObjectId renv) (cc_name req) ids
                                        [user_id admin] [] in
                  mkHandled (mkReply 200 (Some "Channel Created Successfully")
                                     (Some c))
                            (update_channels d (channels d ++ [c])) []
                else failed (RestStorageError ChannelCreate)
              else failed RestValidationError
            else mkHandled (mkReply 400 (Some "Some Members are not Valid Users")
                                    None) d []
          else failed (RestStorageError UserFind)
        end
      end
    else failed (RestStorageError UserFindById)
  end.
Proof.
  unfold CreateChannel, rest_catch, rest_bind, rest_objectId, User_findById,
    User_find_in, Channel_create, rest_ret, rest_throw.
  destruct (rest_cast renv (cc_userID req)) as [user|]; [|reflexivity].
  destruct (served renv UserFindById); [|reflexivity].
  destruct (findUser d user) as [admin|]; [|reflexivity].
  destruct (cast_all renv (cc_members req)) as [ids|]; [|reflexivity].
  destruct (served renv UserFind); [|reflexivity].
  destruct (_ =? _)%nat; [|reflexivity]. cbn [negb].
  destruct (truthy (cc_name req)); [|reflexivity].
  destruct (served renv ChannelCreate); reflexivity.
Qed.

Lemma cast_all_length (renv : RestEnv) (l : list string) (ids : list ObjectId) :
  cast_all renv l = Some ids -> List.length ids = List.length l.
Proof.
  revert ids. induction l as [|s l IH]; cbn; intros ids H.
  - now injection H as <-.
  - destruct (rest_cast renv s); [|discriminate].
    destruct (cast_all renv l) as [ids'|]; [|discriminate].
    injection H as <-. cbn. now rewrite (IH ids').
Qed.

(** Keeping some of the users keeps their ids distinct. *)
Lemma found_users_unique (keep : User -> bool) (us : list User) :
  NoDup (map user_id us) -> NoDup (map user_id (filter keep us)).
Proof.
  intros Hnd. induction us as [|u us IH]; [constructor|].
  cbn [map] in Hnd. apply NoDup_cons_iff in Hnd as [Hfresh Hrest].
  cbn [filter]. destruct (keep u); [|now apply IH].
  cbn [map]. apply NoDup_cons; [|now apply IH].
  intros Hin. apply Hfresh. apply in_map_iff in Hin as (x & <- & Hx).
  apply in_map. now apply filter_In in Hx.
Qed.

Lemma In_users_findUser (d : Db) (u : User) :
  In u (users d) -> findUser d (user_id u) <> None.
Proof.
  intros Hin Hnone. unfold findUser in Hnone.
  apply (find_none _ _ Hnone) in Hin. now rewrite String.eqb_refl in Hin.
Qed.

(** The count of [CreateChannel]: as many users found as ids asked for
    means that the ids are pairwise distinct and all name users. *)
Lemma all_found_distinct_existing (d : Db) (ids : list ObjectId) :
  users_unique d ->
  List.length (filter (fun u => existsb (String.eqb (user_id u)) ids) (users d))
  = List.length ids ->
  NoDup ids /\ (forall id, In id ids -> findUser d id <> None).
Proof.
  intros Hu Hlen.
  set (found := filter (fun u => existsb (String.eqb (user_id u)) ids) (users d))
    in *.
  assert (Hnd : NoDup (map user_id found)) by now apply found_users_unique.
  assert (Hincl : incl (map user_id found) ids).
  { intros x Hx. apply in_map_iff in Hx as (u & <- & Hin).
    apply filter_In in Hin as [_ He].
    apply existsb_exists in He as (y & Hy & E).
    apply String.eqb_eq in E. now rewrite E. }
  assert (Hle : List.length ids <= List.length (map user_id found))
    by (rewrite length_map; lia).
  split.
  - exact (NoDup_incl_NoDup Hnd Hle Hincl).
  - intros id Hid. apply (NoDup_length_incl Hnd Hle Hincl) in Hid.
    apply in_map_iff in Hid as (u & <- & Hin).
    apply filter_In in Hin as [Hin _]. now apply In_users_findUser.
Qed.

(** X14. A channel is created only for an existing requester and for
    members that are pairwise distinct existing users.  The answer 200 of
    [CreateChannel] means that: the new channel is added last to the store
    with these members, the requester as its only admin and no message,
    under the generated id; users and messages are untouched and nothing
    is written to the console. *)
Theorem CreateChannel_creates_for_valid_users
        (renv : RestEnv) (req : CreateChannelRequest) (d : Db) :
  users_unique d ->
  reply_status (reply (CreateChannel renv req d)) = 200 ->
  exists admin ids,
    rest_cast renv (cc_userID req) = Some admin
    /\ findUser d admin <> None
    /\ cast_all renv (cc_members req) = Some ids
    /\ NoDup ids
    /\ (forall id, In id ids -> findUser d id <> None)
    /\ let c := mkChannelDoc (newObjectId renv) (cc_name req) ids [admin] [] in
       CreateChannel renv req d
       = mkHandled (mkReply 200 (Some "Channel Created Successfully") (Some c))
                   (update_channels d (channels d ++ [c])) [].
Proof.
  intros Hu. rewrite CreateChannel_run. cbv zeta.
  destruct (rest_cast renv (cc_userID req)) as [user|]; [|discriminate].
  destruct (served renv UserFindById); [|discriminate].
  destruct (findUser d user) as [admin|] eqn:Ea; [|discriminate].
  destruct (cast_all renv (cc_members req)) as [ids|] eqn:Ec; [|discriminate].
  destruct (served renv UserFind); [|discriminate].
  destruct (Nat.eqb_spec
              (List.length (filter (fun u => existsb (String.eqb (user_id u)) ids)
                                   (users d)))
              (List.length (cc_members req))) as [Hlen|]; [|discriminate].
  destruct (truthy (cc_name req)); [|discriminate].
  destruct (served renv ChannelCreate); [|discriminate].
  intros _. rewrite <- (cast_all_length renv _ ids Ec) in Hlen.
  destruct (all_found_distinct_existing d ids Hu Hlen) as [Hnd Hex].
  exists user, ids. repeat split; auto.
  - congruence.
  - now rewrite (findUser_Some d user admin Ea).
Qed.

Lemma sample_users_unique : users_unique Sample.db0.
Proof.
  unfold users_unique. cbn.
  repeat constructor; cbn; intros H;
    repeat (destruct H as [H|H]; [discriminate|]); exact H.
Qed.

Lemma CreateChannel_creates_for_valid_users_witness :
  exists admin ids,
    rest_cast Demo.renv (cc_userID Demo.create_team) = Some admin
    /\ findUser Sample.db0 admin <> None
    /\ cast_all Demo.renv (cc_members Demo.create_team) = Some ids
    /\ NoDup ids
    /\ (forall id, In id ids -> findUser Sample.db0 id <> None)
    /\ let c := mkChannelDoc (newObjectId Demo.renv)
                             (cc_name Demo.create_team) ids [admin] [] in
       CreateChannel Demo.renv Demo.create_team Sample.db0
       = mkHandled (mkReply 200 (Some "Channel Created Successfully") (Some c))
                   (update_channels Sample.db0 (channels Sample.db0 ++ [c])) [].
Proof.
  apply (CreateChannel_creates_for_valid_users
           Demo.renv Demo.create_team Sample.db0).
  - exact sample_users_unique.
  - reflexivity.
Defined.

(** X15. [CreateChannel] refuses with 400 a requester who is no user, and
    (for a requester who is one) a member list in which an id is repeated
    or names no user; whenever its answer is not 200 the store is left as
    it was. *)
Theorem CreateChannel_refusals
        (renv : RestEnv) (req : CreateChannelRequest) (d : Db) :
  (reply_status (reply (CreateChannel renv req d)) <> 200 ->
   store (CreateChannel renv req d) = d)
  /\ (forall user,
         rest_cast renv (cc_userID req) = Some user ->
         served renv UserFindById = true ->
         findUser d user = None ->
         CreateChannel renv req d
         = mkHandled (mkReply 400 (Some "Admin User Not Found") None) d [])
  /\ (forall user ids,
         users_unique d ->
         rest_cast renv (cc_userID req) = Some user ->
         served renv UserFindById = true ->
         findUser d user <> None ->
         cast_all renv (cc_members req) = Some ids ->
         served renv UserFind = true ->
         ~ NoDup ids \/ (exists id, In id ids /\ findUser d id = None) ->
         CreateChannel renv req d
         = mkHandled (mkReply 400 (Some "Some Members are not Valid Users") None)
                     d []).
Proof.
  split; [|split].
  - rewrite CreateChannel_run. cbv zeta.
    destruct (rest_cast renv (cc_userID req)) as [user|]; [|reflexivity].
    destruct (served renv UserFindById); [|reflexivity].
    destruct (findUser d user) as [admin|]; [|reflexivity].
    destruct (cast_all renv (cc_members req)) as [ids|]; [|reflexivity].
    destruct (served renv UserFind); [|reflexivity].
    destruct (_ =? _)%nat; [|reflexivity].
    destruct (truthy (cc_name req)); [|reflexivity].
    destruct (served renv ChannelCreate); [|reflexivity].
    cbn. congruence.
  - intros user Hc Hs Hf. rewrite CreateChannel_run. cbv zeta.
    now rewrite Hc, Hs, Hf.
  - intros user ids Hu Hc Hs Hf Hm Hs' Hbad. rewrite CreateChannel_run. cbv zeta.
    rewrite Hc, Hs, Hm, Hs'.
    destruct (findUser d user) as [admin|]; [|congruence].
    destruct (Nat.eqb_spec
                (List.length (filter (fun u => existsb (String.eqb (user_id u)) ids)
                                     (users d)))
                (List.length (cc_members req))) as [Hlen|]; [|reflexivity].
    exfalso. rewrite <- (cast_all_length renv _ ids Hm) in Hlen.
    destruct (all_found_distinct_existing d ids Hu Hlen) as [Hnd Hex].
    destruct Hbad as [Hbad|(id & Hin & Hnone)]; [auto|].
    now apply (Hex id Hin).
Qed.

Lemma CreateChannel_refusals_witness :
  CreateChannel Demo.renv Demo.create_twice Sample.db0
  = mkHandled (mkReply 400 (Some "Some Members are not Valid Users") None)
              Sample.db0 [].
Proof.
  apply (proj2 (proj2 (CreateChannel_refusals
                         Demo.renv Demo.create_twice Sample.db0))
               Sample.alice [Sample.bob; Sample.bob]).
  - exact sample_users_unique.
  - reflexivity.
  - reflexivity.
  - vm_compute. discriminate.
  - reflexivity.
  - reflexivity.
  - left. intros H. inversion H as [|? ? Hn _]; subst. apply Hn. now left.
Defined.

(** ** Members are users *)

Lemma created_channel_members_exist
      (renv : RestEnv) (req : CreateChannelRequest) (d : Db) :
  users_unique d ->
  reply_status (reply (CreateChannel renv req d)) = 200 ->
  exists admin ids,
    findUser d admin <> None
    /\ (forall id, In id ids -> findUser d id <> None)
    /\ store (CreateChannel renv req d)
       = update_channels d (channels d
                              ++ [mkChannelDoc (newObjectId renv) (cc_name req)
                                               ids [admin] []]).
Proof.
  intros Hu. rewrite CreateChannel_run. cbv zeta.
  destruct (rest_cast renv (cc_userID req)) as [user|]; [|discriminate].
  destruct (served renv UserFindById); [|discriminate].
  destruct (findUser d user) as [admin|] eqn:Ea; [|discriminate].
  destruct (cast_all renv (cc_members req)) as [ids|] eqn:Ec; [|discriminate].
  destruct (served renv UserFind); [|discriminate].
  destruct (Nat.eqb_spec
              (List.length (filter (fun u => existsb (String.eqb (user_id u)) ids)
                                   (users d)))
              (List.length (cc_members req))) as [Hlen|]; [|discriminate].
  destruct (truthy (cc_name req)); [|discriminate].
  destruct (served renv ChannelCreate); [|discriminate].
  intros _. rewrite <- (cast_all_length renv _ ids Ec) in Hlen.
  destruct (all_found_distinct_existing d ids Hu Hlen) as [Hnd Hex].
  exists user, ids. repeat split; auto.
  - congruence.
  - cbn. now rewrite (findUser_Some d user admin Ea).
Qed.

Lemma members_exist_same_users (d d' : Db) :
  users d' = users d -> channels d' = channels d ->
  members_exist d -> members_exist d'.
Proof.
  unfold members_exist, findUser. intros -> ->. auto.
Qed.

Lemma push_message_members (cs : list ChannelDoc) (cid : ObjectId) (mid : nat)
      (P : ObjectId -> Prop) :
  Forall (fun c => Forall P (channel_members c ++ channel_admin c)) cs ->
  Forall (fun c => Forall P (channel_members c ++ channel_admin c))
         (push_message cs cid mid).
Proof.
  induction cs as [|c cs IH]; intros H; [constructor|].
  rewrite push_message_cons. inversion H as [|? ? Hc Hcs]; subst.
  destruct (channel_id c =? cid).
  - constructor; [exact Hc|exact Hcs].
  - constructor; [exact Hc|now apply IH].
Qed.

Lemma sendMessage_members_exist (env : Env) (message : Draft) (w : World) :
  members_exist (db w) -> members_exist (db (world (sendMessage env message w))).
Proof.
  intros H. rewrite sendMessage_run. cbv zeta.
  direct_cases env message; cbn [world]; try exact H;
    now apply (members_exist_same_users (db w)).
Qed.

Lemma sendMessageOnChannel_members_exist (env : Env) (message : ChannelDraft)
      (w : World) :
  members_exist (db w) ->
  members_exist (db (world (sendMessageOnChannel env message w))).
Proof.
  intros H. rewrite sendMessageOnChannel_run. cbv zeta.
  assert (H2 : forall doc cid mid,
             members_exist
               (update_channels (insert_message (db w) doc)
                  (push_message (channels (insert_message (db w) doc)) cid mid))).
  { intros doc cid mid. unfold members_exist.
    apply (push_message_members (channels (db w)) cid mid
             (fun id => findUser (db w) id <> None)). exact H. }
  channel_cases env message cid; cbn [world db with_db]; try exact H;
    try apply H2; now apply (members_exist_same_users (db w)).
Qed.

Lemma handle_members_exist (env : Env) (i : Input) (w : World) :
  members_exist (db w) -> members_exist (db (world (handle env i w))).
Proof.
  intros Hok. destruct i as [s|sid e]; cbn [handle].
  - now rewrite connection_world.
  - rewrite receive_run.
    destruct (registered w sid (event_name e)); [|exact Hok].
    destruct e as [message|message|].
    + now apply sendMessage_members_exist.
    + now apply sendMessageOnChannel_members_exist.
    + rewrite disconnect_world.
      destruct (first_user_of (userSocketMap w) sid); exact Hok.
Qed.

(** X16. Every member and every admin of every stored channel is an
    existing user, and stays one: [CreateChannel] keeps this, whatever it
    answers, and so does everything the socket server handles. *)
Theorem members_stay_users :
  (forall (renv : RestEnv) (req : CreateChannelRequest) (d : Db),
      users_unique d -> members_exist d ->
      members_exist (store (CreateChannel renv req d)))
  /\ (forall (inputs : list (Env * Input)) (w : World),
         members_exist (db w) ->
         members_exist (db (world (serve inputs w)))).
Proof.
  split.
  - intros renv req d Hu H.
    destruct (Nat.eq_dec (reply_status (reply (CreateChannel renv req d))) 200)
      as [E|E].
    + destruct (created_channel_members_exist renv req d Hu E)
        as (admin & ids & Ha & Hids & ->).
      unfold members_exist, update_channels. cbn.
      apply Forall_app. split; [exact H|].
      constructor; [|constructor]. cbn. apply Forall_app. split.
      * now apply Forall_forall.
      * constructor; [exact Ha|constructor].
    + assert (Es : store (CreateChannel renv req d) = d).
      { revert E. rewrite CreateChannel_run. cbv zeta.
        destruct (rest_cast renv (cc_userID req)) as [user|]; [|reflexivity].
        destruct (served renv UserFindById); [|reflexivity].
        destruct (findUser d user) as [admin|]; [|reflexivity].
        destruct (cast_all renv (cc_members req)) as [ids|]; [|reflexivity].
        destruct (served renv UserFind); [|reflexivity].
        destruct (_ =? _)%nat; [|reflexivity].
        destruct (truthy (cc_name req)); [|reflexivity].
        destruct (served renv ChannelCreate); [|reflexivity].
        cbn. congruence. }
      now rewrite Es.
  - induction inputs as [|[env i] rest IH]; intros w Hok; [exact Hok|].
    cbn [serve]. unfold bind. rewrite handle_returns. cbn [world].
    apply IH. now apply handle_members_exist.
Qed.

Lemma sample_members_exist : members_exist Sample.db0.
Proof.
  unfold members_exist. cbn.
  repeat constructor; vm_compute; discriminate.
Qed.

Lemma members_stay_users_witness :
  members_exist (store (CreateChannel Demo.renv Demo.create_team Sample.db0))
  /\ members_exist
       (db (world (serve [(Sample.env, Connect Sample.sock_a);
                          (Sample.env,
                           Receive "sock-a"
                                   (EvSendMessageOnChannel
                                      (mkChannelDraft Sample.hi Sample.general)))]
                         Sample.world0))).
Proof.
  split.
  - apply (proj1 members_stay_users Demo.renv Demo.create_team Sample.db0).
    + exact sample_users_unique.
    + exact sample_members_exist.
  - apply (proj2 members_stay_users
                 [(Sample.env, Connect Sample.sock_a);
                  (Sample.env,
                   Receive "sock-a"
                           (EvSendMessageOnChannel
                              (mkChannelDraft Sample.hi Sample.general)))]
                 Sample.world0).
    exact sample_members_exist.
Defined.

(** ** The direct-message contact list *)

Lemma insert_desc_perm {A} (key : A -> nat) (x : A) (l : list A) :
  Permutation (insert_desc key x l) (x :: l).
Proof.
  induction l as [|y l IH]; cbn [insert_desc]; [reflexivity|].
  destruct (key y <? key x)%nat; [reflexivity|].
  rewrite IH. apply perm_swap.
Qed.

Lemma sort_desc_perm {A} (key : A -> nat) (l : list A) :
  Permutation (sort_desc key l) l.
Proof.
  unfold sort_desc. rewrite (Permutation_rev l) at 2.
  induction (rev l) as [|x l' IH]; cbn [fold_right]; [reflexivity|].
  rewrite insert_desc_perm. now constructor.
Qed.

Lemma sort_desc_In {A} (key : A -> nat) (l : list A) (x : A) :
  In x (sort_desc key l) <-> In x l.
Proof.
  split; apply Permutation_in;
    [apply sort_desc_perm|symmetry; apply sort_desc_perm].
Qed.

Lemma insert_desc_sorted {A} (key : A -> nat) (x : A) (l : list A) :
  StronglySorted (newest_first key) l ->
  StronglySorted (newest_first key) (insert_desc key x l).
Proof.
  induction l as [|y l IH]; cbn [insert_desc]; intros Hs.
  - constructor; constructor.
  - inversion Hs as [|? ? Hl Hy]; subst.
    destruct (Nat.ltb_spec (key y) (key x)).
    + constructor; [exact Hs|]. constructor; [unfold newest_first; lia|].
      eapply Forall_impl; [|exact Hy]. unfold newest_first. intros; lia.
    + constructor; [now apply IH|].
      apply Forall_forall. intros z Hz.
      apply (Permutation_in _ (insert_desc_perm key x l)) in Hz.
      destruct Hz as [<-|Hz]; [unfold newest_first; lia|].
      now apply (proj1 (Forall_forall _ _) Hy).
Qed.

Lemma sort_desc_sorted {A} (key : A -> nat) (l : list A) :
  StronglySorted (newest_first key) (sort_desc key l).
Proof.
  unfold sort_desc. induction (rev l) as [|x l' IH]; cbn [fold_right].
  - constructor.
  - now apply insert_desc_sorted.
Qed.

Lemma same_party_eq (a b : option ObjectId) : same_party a b = true <-> a = b.
Proof.
  destruct a as [x|], b as [y|]; cbn; try (split; congruence).
  rewrite String.eqb_eq. split; congruence.
Qed.

Lemma group_first_In (l : list (option ObjectId * nat)) (g : option ObjectId * nat) :
  In g (group_first l) -> In g l.
Proof.
  induction l as [|g0 l IH]; cbn [group_first]; [easy|].
  intros [<-|H]; [now left|]. right. apply IH. now apply filter_In in H.
Qed.

Lemma group_first_covers (l : list (option ObjectId * nat)) (k : option ObjectId)
      (t : nat) :
  In (k, t) l -> exists t', In (k, t') (group_first l).
Proof.
  induction l as [|[k0 t0] l IH]; cbn [group_first]; [easy|].
  intros [H|H].
  - injection H as -> ->. exists t. now left.
  - destruct (same_party k k0) eqn:E.
    + apply same_party_eq in E as ->. exists t0. now left.
    + destruct (IH H) as (t' & Ht'). exists t'. right.
      apply filter_In. split; [exact Ht'|]. cbn. now rewrite E.
Qed.

Lemma group_first_keys (l : list (option ObjectId * nat)) :
  NoDup (map fst (group_first l)).
Proof.
  induction l as [|[k0 t0] l IH]; cbn [group_first map fst]; constructor.
  - intros Hin. apply in_map_iff in Hin as ([k t] & Hk & Hin). cbn in Hk. subst k.
    apply filter_In in Hin as [_ Hin]. cbn in Hin.
    assert (E : same_party k0 k0 = true) by now apply same_party_eq.
    now rewrite E in Hin.
  - clear -IH. induction (group_first l) as [|g gs IHg]; cbn [filter map];
      [constructor|].
    inversion IH as [|? ? Hn Hgs]; subst.
    destruct (negb (same_party (fst g) k0)); [|now apply IHg].
    cbn [map]. constructor; [|now apply IHg].
    intros Hin. apply Hn. apply in_map_iff in Hin as (x & Hx & Hin).
    apply in_map_iff. exists x. split; [exact Hx|]. now apply filter_In in Hin.
Qed.

Lemma group_first_newest (l : list (option ObjectId * nat)) (k : option ObjectId)
      (t : nat) :
  StronglySorted (newest_first snd) l ->
  In (k, t) (group_first l) ->
  forall t', In (k, t') l -> t' <= t.
Proof.
  induction l as [|[k0 t0] l IH]; cbn [group_first]; [easy|].
  intros Hs Hin t' Hin'. inversion Hs as [|? ? Hl Hall]; subst.
  destruct Hin as [H|H].
  - injection H as -> ->. destruct Hin' as [H'|H'].
    + injection H' as ->. lia.
    + apply (proj1 (Forall_forall _ _) Hall) in H'. exact H'.
  - apply filter_In in H as [H Hne]. cbn in Hne.
    destruct Hin' as [H'|H'].
    + injection H' as -> ->.
      assert (E : same_party k k = true) by now apply same_party_eq.
      now rewrite E in Hne.
    + now apply (IH Hl H).
Qed.

Lemma involves_other_between (u c : ObjectId) (m : MessageDoc) :
  involves u m = true /\ other_party u m = Some c <-> between u c m = true.
Proof.
  rewrite between_spec. unfold involves, other_party, opt_eqb.
  destruct (String.eqb_spec (msg_sender m) u) as [Es|Es].
  - cbn. split.
    + intros [_ H]. now left.
    + intros [[_ H]|[H1 H2]]; [now split|].
      split; [reflexivity|]. congruence.
  - cbn. destruct (msg_receiver m) as [r|].
    + rewrite String.eqb_eq. split.
      * intros [-> H]. injection H as <-. now right.
      * intros [[H _]|[-> H]]; [congruence|]. injection H as ->. now split.
    + split; [intros [H _]; discriminate|].
      intros [[H _]|[_ H]]; [congruence|discriminate].
Qed.

Lemma sorted_times (u : ObjectId) (l : list MessageDoc) :
  StronglySorted (newest_first msg_timeStamp) l ->
  StronglySorted (newest_first snd)
                 (map (fun m => (other_party u m, msg_timeStamp m)) l).
Proof.
  induction 1 as [|m l Hl IH Hall]; cbn [map]; constructor; [exact IH|].
  apply Forall_forall. intros g Hg. apply in_map_iff in Hg as (x & <- & Hx).
  exact (proj1 (Forall_forall _ _) Hall x Hx).
Qed.

Lemma In_contact_rows (d : Db) (gs : list (option ObjectId * nat)) (row : DMContact) :
  In row (flat_map (contact_rows d) gs) <->
  exists usr,
    In (Some (dm_id row), dm_lastMessageTime row) gs
    /\ In usr (users d) /\ user_id usr = dm_id row
    /\ row = mkDMContact (dm_id row) (dm_lastMessageTime row) (email usr)
                         (firstName usr) (lastName usr) (imageURL usr)
                         (colorTheme usr).
Proof.
  rewrite in_flat_map. unfold contact_rows. split.
  - intros ([k t] & Hg & Hin). cbn [fst snd] in Hin.
    destruct k as [id|]; [|easy].
    apply in_map_iff in Hin as (usr & <- & Hin).
    apply filter_In in Hin as [Hin E]. apply String.eqb_eq in E.
    cbn. exists usr. auto.
  - intros (usr & Hg & Hin & Hid & Hrow).
    exists (Some (dm_id row), dm_lastMessageTime row). split; [exact Hg|].
    cbn [fst snd]. apply in_map_iff. exists usr. split; [now symmetry|].
    apply filter_In. split; [exact Hin|]. now apply String.eqb_eq.
Qed.

Lemma contact_rows_ids (d : Db) (gs : list (option ObjectId * nat)) :
  users_unique d ->
  NoDup (map fst gs) -> NoDup (map dm_id (flat_map (contact_rows d) gs)).
Proof.
  intros Hu.
  induction gs as [|[k t] gs IH]; cbn [map flat_map fst]; intros Hnd;
    [constructor|].
  inversion Hnd as [|? ? Hn Hgs]; subst. rewrite map_app.
  destruct k as [id|]; [|now apply IH].
  assert (Hone : map dm_id (contact_rows d (Some id, t))
                 = map user_id (filter (fun u => user_id u =? id) (users d))).
  { unfold contact_rows. cbn [fst snd]. rewrite map_map. apply map_ext_in.
    intros u Hin. apply filter_In in Hin as [_ E]. apply String.eqb_eq in E.
    now cbn. }
  apply NoDup_app.
  - rewrite Hone. now apply found_users_unique.
  - now apply IH.
  - intros c Hc Hin. rewrite Hone in Hc.
    apply in_map_iff in Hc as (u & <- & Hu').
    apply filter_In in Hu' as [_ E]. apply String.eqb_eq in E.
    apply in_map_iff in Hin as (row & Hid & Hin).
    apply In_contact_rows in Hin as (usr' & Hg & _).
    apply Hn. apply in_map_iff. exists (Some (dm_id row), dm_lastMessageTime row).
    split; [cbn; congruence|exact Hg].
Qed.

Lemma findUser_In (d : Db) (c : ObjectId) :
  findUser d c <> None <-> exists usr, In usr (users d) /\ user_id usr = c.
Proof.
  split.
  - unfold findUser. destruct (find _ (users d)) as [usr|] eqn:E; [|congruence].
    intros _. apply find_some in E as [Hin E]. apply String.eqb_eq in E. eauto.
  - intros (usr & Hin & <-). now apply In_users_findUser.
Qed.

Lemma getContactsForDMList_run (renv : RestEnv) (userID : string) (d : Db) :
  getContactsForDMList renv userID d =
  let refused := mkReply 404 (Some "INTERNAL SERVER ERROR") None in
  match rest_cast renv userID with
  | None => mkHandled refused d [RestCastError]
  | Some u =>
    if served renv MessageAggregate
    then mkHandled (mkReply 200 None (Some (dm_contacts d u))) d []
    else mkHandled refused d [RestStorageError MessageAggregate]
  end.
Proof.
  unfold getContactsForDMList, rest_catch, rest_bind, rest_objectId, rest_ret,
    rest_throw.
  destruct (rest_cast renv userID); [|reflexivity].
  now destruct (served renv MessageAggregate).
Qed.

(** The groups of the pipeline: one per other party, with the time of the
    newest message exchanged with it. *)
Lemma dm_groups (d : Db) (u : ObjectId) :
  let groups :=
      group_first (map (fun m => (other_party u m, msg_timeStamp m))
                       (sort_desc msg_timeStamp
                                  (filter (involves u) (messages d)))) in
  NoDup (map fst groups)
  /\ (forall c m, In m (messages d) -> between u c m = true ->
                  exists t, In (Some c, t) groups)
  /\ (forall c t, In (Some c, t) groups ->
         (exists m, In m (messages d) /\ between u c m = true
                    /\ msg_timeStamp m = t)
         /\ (forall m, In m (messages d) -> between u c m = true ->
                       msg_timeStamp m <= t)).
Proof.
  set (sorted := sort_desc msg_timeStamp (filter (involves u) (messages d))).
  set (times := map (fun m => (other_party u m, msg_timeStamp m)) sorted).
  cbv zeta.
  assert (Hsorted : forall m, In m sorted <->
                              In m (messages d) /\ involves u m = true).
  { intros m. unfold sorted. rewrite sort_desc_In. apply filter_In. }
  assert (Htimes : StronglySorted (newest_first snd) times).
  { apply sorted_times. apply sort_desc_sorted. }
  assert (Hin : forall c m, In m (messages d) -> between u c m = true ->
                            In (Some c, msg_timeStamp m) times).
  { intros c m Hm Hb. apply involves_other_between in Hb as [Hi Ho].
    apply in_map_iff. exists m. split; [now rewrite Ho|].
    apply Hsorted. now split. }
  split; [apply group_first_keys|split].
  - intros c m Hm Hb. apply (group_first_covers times (Some c) (msg_timeStamp m)).
    now apply Hin.
  - intros c t Hg. split.
    + apply group_first_In in Hg. apply in_map_iff in Hg as (m & Hm & Hmem).
      injection Hm as Ho Ht. apply Hsorted in Hmem as [Hmem Hi].
      exists m. repeat split; auto. now apply involves_other_between.
    + intros m Hm Hb.
      apply (group_first_newest times (Some c) t Htimes Hg). now apply Hin.
Qed.

Lemma dm_contacts_spec (d : Db) (u : ObjectId) :
  users_unique d ->
  let rows := dm_contacts d u in
  NoDup (map dm_id rows)
  /\ StronglySorted (newest_first dm_lastMessageTime) rows
  /\ (forall c, In c (map dm_id rows) <->
                findUser d c <> None
                /\ exists m, In m (messages d) /\ between u c m = true)
  /\ (forall row, In row rows ->
        (exists m, In m (messages d) /\ between u (dm_id row) m = true
                   /\ msg_timeStamp m = dm_lastMessageTime row)
        /\ (forall m, In m (messages d) -> between u (dm_id row) m = true ->
                      msg_timeStamp m <= dm_lastMessageTime row)).
Proof.
  intros Hu. cbv zeta. unfold dm_contacts.
  destruct (dm_groups d u) as (Hkeys & Hcover & Hgroup).
  cbv zeta in Hkeys, Hcover, Hgroup.
  set (groups := group_first _) in *.
  split; [|split; [|split]].
  - apply (Permutation_NoDup
             (Permutation_map dm_id
                (Permutation_sym (sort_desc_perm dm_lastMessageTime _)))).
    now apply contact_rows_ids.
  - apply sort_desc_sorted.
  - intros c. split.
    + intros Hin. apply in_map_iff in Hin as (row & <- & Hin).
      apply sort_desc_In, In_contact_rows in Hin as (usr & Hg & Hin & Hid & _).
      split; [apply findUser_In; eauto|].
      destruct (proj1 (Hgroup _ _ Hg)) as (m & Hm & Hb & _). eauto.
    + intros (Hf & m & Hin & Hb).
      destruct (Hcover c m Hin Hb) as (t' & Hg).
      apply findUser_In in Hf as (usr & Husr & Hid).
      apply in_map_iff.
      exists (mkDMContact c t' (email usr) (firstName usr) (lastName usr)
                          (imageURL usr) (colorTheme usr)).
      split; [reflexivity|]. apply sort_desc_In, In_contact_rows.
      exists usr. cbn. auto.
  - intros row Hin.
    apply sort_desc_In, In_contact_rows in Hin as (usr & Hg & _).
    now apply Hgroup.
Qed.

(** X17. For a requester id that casts, a store that serves the
    aggregation and users with distinct ids, the direct-message contact
    list answers 200 with one row per existing user with whom the requester
    has exchanged a stored direct message, in either direction, and no
    other row; each row carries the time of the newest of these messages,
    and the rows come newest conversation first.  Nothing is changed or
    logged. *)
Theorem getContactsForDMList_lists_conversations
        (renv : RestEnv) (d : Db) (userID : string) (u : ObjectId) :
  users_unique d ->
  rest_cast renv userID = Some u ->
  served renv MessageAggregate = true ->
  exists rows,
    getContactsForDMList renv userID d
    = mkHandled (mkReply 200 None (Some rows)) d []
    /\ NoDup (map dm_id rows)
    /\ StronglySorted (newest_first dm_lastMessageTime) rows
    /\ (forall c, In c (map dm_id rows) <->
                  findUser d c <> None
                  /\ exists m, In m (messages d) /\ between u c m = true)
    /\ (forall row, In row rows ->
          (exists m, In m (messages d) /\ between u (dm_id row) m = true
                     /\ msg_timeStamp m = dm_lastMessageTime row)
          /\ (forall m, In m (messages d) -> between u (dm_id row) m = true ->
                        msg_timeStamp m <= dm_lastMessageTime row)).
Proof.
  intros Hu Hc Hs. exists (dm_contacts d u). split.
  - now rewrite getContactsForDMList_run, Hc, Hs.
  - exact (dm_contacts_spec d u Hu).
Qed.

Lemma demo_users_unique : users_unique Demo.db1.
Proof.
  unfold users_unique. cbn.
  repeat constructor; cbn; intros H;
    repeat (destruct H as [H|H]; [discriminate|]); exact H.
Qed.

Lemma getContactsForDMList_lists_conversations_witness :
  exists rows,
    getContactsForDMList Demo.renv Sample.alice Demo.db1
    = mkHandled (mkReply 200 None (Some rows)) Demo.db1 []
    /\ NoDup (map dm_id rows)
    /\ StronglySorted (newest_first dm_lastMessageTime) rows
    /\ (forall c, In c (map dm_id rows) <->
                  findUser Demo.db1 c <> None
                  /\ exists m, In m (messages Demo.db1)
                               /\ between Sample.alice c m = true)
    /\ (forall row, In row rows ->
          (exists m, In m (messages Demo.db1)
                     /\ between Sample.alice (dm_id row) m = true
                     /\ msg_timeStamp m = dm_lastMessageTime row)
          /\ (forall m, In m (messages Demo.db1) ->
                        between Sample.alice (dm_id row) m = true ->
                        msg_timeStamp m <= dm_lastMessageTime row)).
Proof.
  apply (getContactsForDMList_lists_conversations
           Demo.renv Demo.db1 Sample.alice Sample.alice).
  - exact demo_users_unique.
  - reflexivity.
  - reflexivity.
Defined.

(** X18. The contact list is refused with 404 and the message
    "INTERNAL SERVER ERROR", and one line on the console, when the
    requester id does not cast or the aggregation is not served; these are
    the only refusals, the answer is otherwise 200, and in every case the
    store is left as it was. *)
Theorem getContactsForDMList_refusals
        (renv : RestEnv) (userID : string) (d : Db) :
  let r := getContactsForDMList renv userID d in
  let refused := mkReply 404 (Some "INTERNAL SERVER ERROR") None in
  store r = d
  /\ (rest_cast renv userID = None ->
      reply r = refused /\ console r = [RestCastError])
  /\ (rest_cast renv userID <> None -> served renv MessageAggregate = false ->
      reply r = refused /\ console r = [RestStorageError MessageAggregate])
  /\ (reply_status (reply r) = 200 <->
      rest_cast renv userID <> None /\ served renv MessageAggregate = true)
  /\ (reply_status (reply r) = 200 \/ reply r = refused).
Proof.
  cbv zeta. rewrite getContactsForDMList_run. cbv zeta.
  destruct (rest_cast renv userID) as [u|];
    [destruct (served renv MessageAggregate)|]; cbn.
  - repeat split; try discriminate; try congruence. now left.
  - repeat split; try discriminate; try congruence; try (now right).
    intros [_ H]. discriminate.
  - repeat split; try discriminate; try congruence; try (now right).
    intros [H _]. congruence.
Qed.

Lemma getContactsForDMList_refusals_witness :
  reply (getContactsForDMList Demo.renv "alice" Demo.db1)
  = mkReply 404 (Some "INTERNAL SERVER ERROR") None
  /\ console (getContactsForDMList Demo.renv "alice" Demo.db1)
     = [RestCastError].
Proof.
  apply (proj1 (proj2 (getContactsForDMList_refusals
                         Demo.renv "alice" Demo.db1))).
  reflexivity.
Defined.

Lemma sendMessage_db (env : Env) (message : Draft) (w : World)
      (f : ObjectId * option ObjectId * string) :
  validate env message = Some f ->
  available env MessageCreate = true ->
  db (world (sendMessage env message w))
  = insert_message (db w) (new_doc env message (db w) f).
Proof.
  intros Hv Hc. rewrite sendMessage_run. cbv zeta. rewrite Hv, Hc.
  now destruct (available env MessageFindById).
Qed.

(** X19. Sending and listing compose: once a direct message from [a] to
    [b] is stored, the contact list of [a] has a row for [b] if [b] is a
    user, and the contact list of [b] has a row for [a] if [a] is a user;
    the last-message time of that row is not older than the message.  This
    needs no connection of either party and holds also when the re-read of
    the stored message fails. *)
Theorem delivered_message_opens_conversation
        (env : Env) (renv : RestEnv) (w : World) (message : Draft)
        (a b : ObjectId) (ty ka kb : string) :
  users_unique (db w) ->
  validate env message = Some (a, Some b, ty) ->
  available env MessageCreate = true ->
  served renv MessageAggregate = true ->
  rest_cast renv ka = Some a ->
  rest_cast renv kb = Some b ->
  let d' := db (world (sendMessage env message w)) in
  (findUser (db w) b <> None ->
   exists rows row,
     reply (getContactsForDMList renv ka d') = mkReply 200 None (Some rows)
     /\ In row rows /\ dm_id row = b /\ now env <= dm_lastMessageTime row)
  /\ (findUser (db w) a <> None ->
      exists rows row,
        reply (getContactsForDMList renv kb d') = mkReply 200 None (Some rows)
        /\ In row rows /\ dm_id row = a /\ now env <= dm_lastMessageTime row).
Proof.
  intros Hu Hv Hc Hs Ha Hb d'. subst d'.
  rewrite (sendMessage_db env message w _ Hv Hc).
  set (doc := new_doc env message (db w) (a, Some b, ty)).
  set (d' := insert_message (db w) doc).
  assert (Hu' : users_unique d') by exact Hu.
  assert (Hdoc : In doc (messages d')).
  { unfold d', insert_message. cbn. apply in_or_app. right. now left. }
  assert (Hab : between a b doc = true).
  { apply between_spec. left. now split. }
  assert (Hrow : forall x y, between x y doc = true ->
                             findUser (db w) y <> None ->
                             exists row, In row (dm_contacts d' x)
                                         /\ dm_id row = y
                                         /\ now env <= dm_lastMessageTime row).
  { intros x y Hxy Hy.
    destruct (dm_contacts_spec d' x Hu') as (_ & _ & Hmem & Hnew).
    assert (Hin : In y (map dm_id (dm_contacts d' x))).
    { apply Hmem. split; [exact Hy|]. eauto. }
    apply in_map_iff in Hin as (row & Hid & Hin).
    exists row. repeat split; auto.
    destruct (Hnew row Hin) as [_ Hle]. rewrite Hid in Hle.
    exact (Hle doc Hdoc Hxy). }
  split; intros Hf.
  - destruct (Hrow a b Hab Hf) as (row & Hin & Hid & Hle).
    exists (dm_contacts d' a), row.
    rewrite getContactsForDMList_run, Ha, Hs. cbn. auto.
  - rewrite between_comm in Hab.
    destruct (Hrow b a Hab Hf) as (row & Hin & Hid & Hle).
    exists (dm_contacts d' b), row.
    rewrite getContactsForDMList_run, Hb, Hs. cbn. auto.
Qed.

Lemma delivered_message_opens_conversation_witness :
  exists rows row,
    reply (getContactsForDMList Demo.renv Sample.bob Demo.db1)
    = mkReply 200 None (Some rows)
    /\ In row rows /\ dm_id row = Sample.alice
    /\ now Sample.env <= dm_lastMessageTime row.
Proof.
  apply (proj2 (delivered_message_opens_conversation
                  Sample.env Demo.renv Sample.world1 Sample.hi
                  Sample.alice Sample.bob "text" Sample.alice Sample.bob
                  sample_users_unique eq_refl eq_refl eq_refl eq_refl
                  eq_refl)).
  discriminate.
Defined.

(** ** The contact picker *)

Lemma getAllContacts_run (renv : RestEnv) (userID : string) (d : Db) :
  getAllContacts renv userID d =
  let refused := mkReply 500 (Some "INTERNAL SERVER ERROR") None in
  match rest_cast renv userID with
  | None => mkHandled refused d [RestCastError]
  | Some me =>
    if served renv UserFind
    then mkHandled
           (mkReply 200 None
                    (Some (map (fun user => mkContactOption (contact_label user)
                                                            (user_id user))
                               (filter (fun u => negb (user_id u =? me))
                                       (users d))))) d []
    else mkHandled refused d [RestStorageError UserFind]
  end.
Proof.
  unfold getAllContacts, rest_catch, rest_bind, User_find_others, rest_ret.
  destruct (rest_cast renv userID); [|reflexivity].
  now destruct (served renv UserFind).
Qed.

(** X20. The contact picker never changes the store.  For a requester id
    that casts and a served query it answers 200 with one entry per user
    other than the requester, in the order of the store: the requester is
    never offered, every other user is, and the label of a user with a first
    name and no last name ends in "undefined".  Otherwise it answers 500
    with one console line. *)
Theorem getAllContacts_offers_everyone_else
        (renv : RestEnv) (userID : string) (d : Db) :
  let r := getAllContacts renv userID d in
  store r = d
  /\ (forall me,
         rest_cast renv userID = Some me ->
         served renv UserFind = true ->
         exists contacts,
           r = mkHandled (mkReply 200 None (Some contacts)) d []
           /\ map option_value contacts
              = filter (fun id => negb (id =? me)) (map user_id (users d))
           /\ (forall id, In id (map option_value contacts) <->
                          id <> me /\ findUser d id <> None)
           /\ (forall usr, In usr (users d) -> user_id usr <> me ->
                 In (mkContactOption (contact_label usr) (user_id usr)) contacts)
           /\ (forall usr first,
                 In usr (users d) -> user_id usr <> me ->
                 firstName usr = Some first -> first <> "" ->
                 lastName usr = None ->
                 In (mkContactOption (first ++ " undefined") (user_id usr))
                    contacts))
  /\ (rest_cast renv userID = None \/ served renv UserFind = false ->
      reply r = mkReply 500 (Some "INTERNAL SERVER ERROR") None
      /\ List.length (console r) = 1).
Proof.
  cbv zeta. rewrite getAllContacts_run. cbv zeta. split; [|split].
  - destruct (rest_cast renv userID); [|reflexivity].
    now destruct (served renv UserFind).
  - intros me Hc Hs. rewrite Hc, Hs.
    set (others := filter (fun u => negb (user_id u =? me)) (users d)).
    assert (Hothers : forall usr, In usr others <->
                                  In usr (users d) /\ user_id usr <> me).
    { intros usr. unfold others. rewrite filter_In, negb_true_iff.
      now rewrite String.eqb_neq. }
    assert (Hoffer : forall usr, In usr (users d) -> user_id usr <> me ->
              In (mkContactOption (contact_label usr) (user_id usr))
                 (map (fun user => mkContactOption (contact_label user)
                                                   (user_id user)) others)).
    { intros usr Hin Hne. apply in_map_iff. exists usr.
      split; [reflexivity|]. now apply Hothers. }
    eexists. split; [reflexivity|]. rewrite map_map. cbn [option_value].
    split; [|split; [|split]].
    + unfold others. clear. induction (users d) as [|x l IH]; [reflexivity|].
      cbn [filter map]. destruct (user_id x =? me); cbn [negb map]; now f_equal.
    + intros id. rewrite in_map_iff, findUser_In. split.
      * intros (usr & <- & Hin). apply Hothers in Hin as [Hin Hne]. eauto.
      * intros (Hne & usr & Hin & <-). exists usr. split; [reflexivity|].
        now apply Hothers.
    + exact Hoffer.
    + intros usr first Hin Hne Hf Hnonempty Hl.
      specialize (Hoffer usr Hin Hne). unfold contact_label in Hoffer.
      rewrite Hf, Hl in Hoffer. cbn [truthy_opt template] in Hoffer.
      replace (truthy first) with true in Hoffer; [exact Hoffer|].
      symmetry. unfold truthy. destruct first; [congruence|reflexivity].
  - intros [Hc|Hs].
    + now rewrite Hc.
    + rewrite Hs. now destruct (rest_cast renv userID).
Qed.

Lemma getAllContacts_offers_everyone_else_witness :
  exists contacts,
    getAllContacts Demo.renv Sample.alice Sample.db0
    = mkHandled (mkReply 200 None (Some contacts)) Sample.db0 []
    /\ map option_value contacts
       = filter (fun id => negb (id =? Sample.alice))
                (map user_id (users Sample.db0))
    /\ (forall id, In id (map option_value contacts) <->
                   id <> Sample.alice /\ findUser Sample.db0 id <> None)
    /\ (forall usr, In usr (users Sample.db0) -> user_id usr <> Sample.alice ->
          In (mkContactOption (contact_label usr) (user_id usr)) contacts)
    /\ (forall usr first,
          In usr (users Sample.db0) -> user_id usr <> Sample.alice ->
          firstName usr = Some first -> first <> "" ->
          lastName usr = None ->
          In (mkContactOption (first ++ " undefined") (user_id usr)) contacts).
Proof.
  apply (proj1 (proj2 (getAllContacts_offers_everyone_else
                         Demo.renv Sample.alice Sample.db0))
               Sample.alice); reflexivity.
Defined.

(** ** The channel list of the client *)

(** [find] and [findIndex] agree: the element found stands at the index
    found, and nothing before it passes the test. *)
Lemma find_at_findIndex {A} (f : A -> bool) (l : list A) :
  match find f l, findIndex f l with
  | Some x, Some i =>
    l = firstn i l ++ x :: skipn (S i) l
    /\ f x = true
    /\ (forall y, In y (firstn i l) -> f y = false)
  | None, None => forall y, In y l -> f y = false
  | _, _ => False
  end.
Proof.
  induction l as [|a l IH]; cbn [find findIndex]; [easy|].
  destruct (f a) eqn:Ea.
  - cbn. repeat split; easy.
  - destruct (find f l) as [x|], (findIndex f l) as [i|]; cbn [option_map];
      try easy.
    + destruct IH as (Hl & Hx & Hb). cbn [firstn skipn app]. repeat split.
      * cbn [skipn] in Hl. now rewrite <- Hl.
      * exact Hx.
      * intros y [<-|Hy]; [exact Ea|now apply Hb].
    + intros y [<-|Hy]; [exact Ea|now apply IH].
Qed.

Lemma named_id (cid : option ObjectId) (c : ChannelDoc) :
  opt_eqb cid (channel_id c) = true <-> cid = Some (channel_id c).
Proof.
  unfold opt_eqb. destruct cid as [id|]; [|easy].
  rewrite String.eqb_eq. split; congruence.
Qed.

Lemma moved_to_front (cid : option ObjectId) (channels : list ChannelDoc) :
  (exists c before after,
      cid = Some (channel_id c)
      /\ channels = before ++ c :: after
      /\ (forall x, In x before -> cid <> Some (channel_id x))
      /\ addChannelInChannelList cid channels = c :: before ++ after)
  \/ ((forall x, In x channels -> cid <> Some (channel_id x))
      /\ addChannelInChannelList cid channels = channels).
Proof.
  unfold addChannelInChannelList, splice_one.
  pose proof (find_at_findIndex
                (fun channel => opt_eqb cid (channel_id channel)) channels)
    as H.
  destruct (find _ channels) as [c|], (findIndex _ channels) as [i|];
    try easy.
  - left. destruct H as (Hl & Hc & Hb).
    exists c, (firstn i channels), (skipn (S i) channels).
    split; [now apply named_id|]. split; [exact Hl|]. split; [|reflexivity].
    intros x Hx E. apply named_id in E. rewrite (Hb x Hx) in E. discriminate.
  - right. split; [|reflexivity].
    intros x Hx E. apply named_id in E. rewrite (H x Hx) in E. discriminate.
Qed.

(** X21. The client's channel list under a channel message: the list
    keeps exactly its channels, each as often as before; when a channel has
    the id carried by the message, the first such channel becomes the head
    and all others keep their relative order; when none has it, or the
    message carries no id, the list is unchanged.  A second message for the
    same channel changes nothing more, and a channel just added with
    [addChannel] stays first under a message for it. *)
Theorem addChannelInChannelList_moves_to_front
        (channelId : option ObjectId) (channels : list ChannelDoc) :
  let after_message := addChannelInChannelList channelId channels in
  Permutation channels after_message
  /\ (forall id,
         channelId = Some id -> In id (map channel_id channels) ->
         exists c before behind,
           channel_id c = id
           /\ channels = before ++ c :: behind
           /\ ~ In id (map channel_id before)
           /\ after_message = c :: before ++ behind)
  /\ (channelId = None \/ (forall id, channelId = Some id ->
                                      ~ In id (map channel_id channels)) ->
      after_message = channels)
  /\ addChannelInChannelList channelId after_message = after_message
  /\ (forall c, channelId = Some (channel_id c) ->
                addChannelInChannelList channelId (addChannel c channels)
                = addChannel c channels).
Proof.
  cbv zeta.
  destruct (moved_to_front channelId channels)
    as [(c & before & behind & Hc & Hl & Hb & Hr)|[Hnone Hr]]; rewrite Hr.
  - assert (Hhead : forall l, addChannelInChannelList channelId (c :: l) = c :: l).
    { intros l. unfold addChannelInChannelList. cbn [find findIndex].
      now rewrite (proj2 (named_id channelId c) Hc). }
    split; [|split; [|split; [|split]]].
    + rewrite Hl. symmetry. apply Permutation_middle.
    + intros id Hid _. exists c, before, behind.
      assert (E : channel_id c = id) by congruence.
      repeat split; auto.
      intros Hin. apply in_map_iff in Hin as (x & Hx & Hin).
      apply (Hb x Hin). congruence.
    + intros [Hn|Hn]; [congruence|]. exfalso. apply (Hn _ Hc).
      rewrite Hl, map_app. apply in_or_app. right. now left.
    + apply Hhead.
    + intros c' Hc'. unfold addChannel, addChannelInChannelList.
      cbn [find findIndex]. now rewrite (proj2 (named_id channelId c') Hc').
  - split; [|split; [|split; [|split]]].
    + reflexivity.
    + intros id Hid Hin. apply in_map_iff in Hin as (x & Hx & Hin).
      exfalso. apply (Hnone x Hin). congruence.
    + reflexivity.
    + exact Hr.
    + intros c' Hc'. unfold addChannel, addChannelInChannelList.
      cbn [find findIndex]. now rewrite (proj2 (named_id channelId c') Hc').
Qed.

Lemma addChannelInChannelList_moves_to_front_witness :
  exists c before behind,
    channel_id c = Sample.staff
    /\ channels Sample.db0 = before ++ c :: behind
    /\ ~ In Sample.staff (map channel_id before)
    /\ addChannelInChannelList (Some Sample.staff) (channels Sample.db0)
       = c :: before ++ behind.
Proof.
  apply (proj1 (proj2 (addChannelInChannelList_moves_to_front
                         (Some Sample.staff) (channels Sample.db0)))).
  - reflexivity.
  - cbn. right. now left.
Defined.
